(** * DeepScrape / HTMLCrawler: crawl orchestration, verified against the sources

    Shallow embedding of
    - [DeepScrape/webscraper/url/url_manager.py]           (module [Frontier]),
    - [DeepScrape/webscraper/processing/*.py], [deepseek/*.py],
      [spiders/keyword_spider.py], [manager/crawler_manager.py]
                                                            (module [DeepScrape]),
    - [web-crawler-project/HTMLCrawler/deepseek_parser.py]  (module [DeepSeek]),
    - [web-crawler-project/HTMLCrawler/pipelines.py]        (modules [Pipelines],
      [Duplicates], [ExportPipelines]),
    - [DeepScrape/scripts/run_crawl.py], [webscraper/app.py] (module [CommandLine]),
    - [web-crawler-project/HTMLCrawler/spiders/html_crawler.py], the legacy
      [DataProcessor]                                       (module [Legacy]).

    Python [str] is modelled as [string] (ASCII text), [int] as [Z], [set] as
    [gset], [dict] as [gmap], [deque]/[list] as [list]. *)

From Stdlib Require Import Ascii ZArith QArith Qminmax Sorted.
From Equations Require Import Equations.
From stdpp Require Import gmap strings list.

Local Open Scope string_scope.
Local Open Scope list_scope.
Local Open Scope Z_scope.

(** ** Python strings *)

Module PyStr.

(** [c.lower()] on one ASCII character. *)
Definition lower_ascii (c : ascii) : ascii :=
  let n := nat_of_ascii c in
  if (65 <=? n)%nat && (n <=? 90)%nat then ascii_of_nat (n + 32) else c.

(** [s.lower()]. *)
Fixpoint lower (s : string) : string :=
  match s with
  | EmptyString => EmptyString
  | String c s' => String (lower_ascii c) (lower s')
  end.

(** [k in s] for two strings: [k] occurs in [s] as a contiguous substring. *)
Fixpoint contains (s k : string) : bool :=
  String.prefix k s ||
  match s with
  | EmptyString => false
  | String _ s' => contains s' k
  end.

(** Truth value of a string: [not s] holds exactly for the empty string. *)
Definition truthy (s : string) : bool :=
  match s with EmptyString => false | _ => true end.

(** Characters for which [str.isspace()] holds, within ASCII. *)
Definition is_space (c : ascii) : bool :=
  let n := nat_of_ascii c in
  ((9 <=? n)%nat && (n <=? 13)%nat) || ((28 <=? n)%nat && (n <=? 32)%nat).

(** [s.lstrip()], [s.rstrip()] and [s.strip()]. *)
Fixpoint lstrip (s : string) : string :=
  match s with
  | String c s' => if is_space c then lstrip s' else s
  | EmptyString => EmptyString
  end.

Fixpoint rstrip (s : string) : string :=
  match s with
  | EmptyString => EmptyString
  | String c s' =>
      match rstrip s' with
      | EmptyString => if is_space c then EmptyString else String c EmptyString
      | r => String c r
      end
  end.

Definition strip (s : string) : string := rstrip (lstrip s).

(** [len(s.split())]: the number of maximal runs of non-space characters.
    [in_word] tells whether the previous character belonged to a word. *)
Fixpoint count_words (in_word : bool) (s : string) : nat :=
  match s with
  | EmptyString => 0
  | String c s' =>
      if is_space c then count_words false s'
      else (if in_word then 0 else 1) + count_words true s'
  end.

(** [s[:n]]. *)
Definition take (n : nat) (s : string) : string := String.substring 0 n s.

End PyStr.

(** ** The URL frontier: [URLManager] *)

Module Frontier.

(** [self.visited], [self.queue], [self.max]. *)
Record URLManager := mkURLManager {
  visited : gset string;
  queue : list string;
  max : Z
}.

(** [URLManager(max_urls)]; the default of [max_urls] is 200. *)
Definition init (max_urls : Z) : URLManager :=
  {| visited := ∅; queue := []; max := max_urls |}.

Definition default_max_urls : Z := 200.

(** One iteration of the loop of [add_urls]. *)
Definition add_url (m : URLManager) (u : string) : URLManager :=
  if bool_decide (u ∉ visited m) && (Z.of_nat (length (queue m)) <? max m)
  then {| visited := visited m; queue := queue m ++ [u]; max := max m |}
  else m.

(** [add_urls(urls)]: [for u in urls: ...]. *)
Definition add_urls (m : URLManager) (urls : list string) : URLManager :=
  foldl add_url m urls.

(** [get_next_url()]: [self.queue.popleft() if self.queue else None]. *)
Definition get_next_url (m : URLManager) : option string * URLManager :=
  match queue m with
  | [] => (None, m)
  | u :: q => (Some u, {| visited := visited m; queue := q; max := max m |})
  end.

(** [mark_visited(u)]. *)
Definition mark_visited (m : URLManager) (u : string) : URLManager :=
  {| visited := {[u]} ∪ visited m; queue := queue m; max := max m |}.

(** [should_visit(u)]. *)
Definition should_visit (m : URLManager) (u : string) : bool :=
  bool_decide (u ∉ visited m) && (Z.of_nat (size (visited m)) <? max m).

(** The operations a client can issue, and a run of a sequence of them. *)
Inductive op :=
| AddUrls (urls : list string)
| NextUrl
| MarkVisited (u : string).

Definition step (m : URLManager) (o : op) : URLManager :=
  match o with
  | AddUrls urls => add_urls m urls
  | NextUrl => snd (get_next_url m)
  | MarkVisited u => mark_visited m u
  end.

Definition run (m : URLManager) (ops : list op) : URLManager := foldl step m ops.

(** The URLs of an [add_urls] call that pass the [visited] test. *)
Definition eligible (m : URLManager) (urls : list string) : list string :=
  filter (λ u, u ∉ visited m) urls.

(** Free places in the queue; none when the queue is at or over [max]. *)
Definition room (m : URLManager) : nat :=
  Z.to_nat (max m - Z.of_nat (length (queue m))).

(** Number of occurrences of [u] in a queue. *)
Definition occurrences (u : string) (q : list string) : nat :=
  length (filter (λ v, v = u) q).

(** The capacity invariant; a negative [max] is a capacity of zero. *)
Definition within_capacity (m : URLManager) : Prop :=
  Z.of_nat (length (queue m)) ≤ Z.max 0 (max m).

(** The scenario of the specification: one URL offered twice to a fresh
    frontier. *)
Definition twice : URLManager :=
  add_urls (init default_max_urls) ["http://a"; "http://a"].

End Frontier.

(** ** Python values and call results *)

Set Warnings "-register-all".

(** The dynamically typed values that occur in items, analysis results and
    export rows. *)
Inductive pyval :=
| VNone
| VBool (b : bool)
| VInt (z : Z)
| VStr (s : string)
| VList (l : list pyval)
| VDict (d : gmap string pyval).

(** A call either returns a value or raises an exception. *)
Inductive result (A : Type) :=
| Ok (a : A)
| Raise.
Arguments Ok {A} a.
Arguments Raise {A}.

Module Py.

(** Truth value of a Python value, as tested by [if v:] and [not v]. *)
Definition truthy (v : pyval) : bool :=
  match v with
  | VNone => false
  | VBool b => b
  | VInt z => negb (z =? 0)
  | VStr s => PyStr.truthy s
  | VList l => match l with [] => false | _ => true end
  | VDict d => negb (bool_decide (d = ∅))
  end.

(** [d.get(k, default)] on a dictionary. *)
Definition get (d : gmap string pyval) (k : string) (default : pyval) : pyval :=
  match d !! k with Some v => v | None => default end.

(** Values that can be members of a [set]: lists and dictionaries cannot. *)
Definition hashable (v : pyval) : bool :=
  match v with VList _ | VDict _ => false | _ => true end.

Definition strs (l : list string) : pyval := VList (VStr <$> l).

End Py.


(** ** DeepScrape: sanitizer, validator, processor, spider and crawl loop *)

Module DeepScrape.

Import Frontier.

(** Modelled from the spec: the class [CrawlItem] of
    [webscraper/models/crawl_item.py], which is not among the sources.  The
    spider builds it as [CrawlItem(url=..., title=..., content=...)] and the
    processor assigns to its attribute [content]; an instance is taken to be
    truthy, as an object of a plain class is. *)
Record CrawlItem := mkCrawlItem {
  url : string;
  title : string;
  content : string
}.

(** [item.content = text]. *)
Definition set_content (item : CrawlItem) (text : string) : CrawlItem :=
  {| url := url item; title := title item; content := text |}.

(** *** [DeepSeekAdapter], [DeepSeekParser] *)

(** The adapter "returns strict JSON (or raises)": [extract_json(text, fields,
    hint)], with [fields] a list of names or [None]. *)
Record DeepSeekAdapter := mkAdapter {
  extract_json : string → option (list string) → result pyval
}.

(** The adapter of the sources: [{k: "" for k in fields}]; iterating over
    [None] raises. *)
Definition stub_adapter : DeepSeekAdapter :=
  {| extract_json := λ _ fields,
       match fields with
       | None => Raise
       | Some fs => Ok (VDict (list_to_map ((λ k, (k, VStr "")) <$> fs)))
       end |}.

Record DeepSeekParser := mkParser { adapter : DeepSeekAdapter }.

(** [parse_data(text, fields)]. *)
Definition parse_data (p : DeepSeekParser) (text : string)
    (fields : option (list string)) : result pyval :=
  extract_json (adapter p) text fields.

(** *** [SchemaValidator] *)

(** [validate(data, required)]. *)
Definition validate (data : pyval) (required : option (list string)) : bool :=
  match data with
  | VDict d => forallb (λ k, bool_decide (is_Some (d !! k))) (default [] required)
  | _ => false
  end.

(** *** [DataProcessor] *)

Record DataProcessor := mkDataProcessor { deepseek : DeepSeekParser }.

(** [DataProcessor()], with the parser and the adapter of the sources. *)
Definition new_processor : DataProcessor :=
  {| deepseek := {| adapter := stub_adapter |} |}.

(** [filter_by_keywords(content, keywords)]. *)
Definition filter_by_keywords (content : string) (keywords : list string) : bool :=
  match keywords with
  | [] => true
  | _ =>
      let c := PyStr.lower content in
      existsb (λ k, PyStr.contains c (PyStr.lower k)) keywords
  end.

Section Sanitizer.

(** [TAG_RE.sub("", ·)]: the substitution done by the regular-expression
    library for the compiled pattern [TAG_RE]. *)
Variable TAG_RE_sub : string → string.

Definition strip_scripts (html_or_text : string) : string := TAG_RE_sub html_or_text.
Definition remove_iframes (html_or_text : string) : string := TAG_RE_sub html_or_text.

(** [clean_text(text)]. *)
Definition clean_text (text : string) : string :=
  strip_scripts (remove_iframes text).

(** [process_item(item, fields)].  The first component is the returned value
    ([None] or the item), the second the caller's item object after the call:
    the assignment to [item.content] mutates it before the [try] block. *)
Definition process_item (dp : DataProcessor) (item : CrawlItem)
    (fields : option (list string)) : option CrawlItem * CrawlItem :=
  let item := set_content item (clean_text (content item)) in
  match parse_data (deepseek dp) (content item) fields with
  | Raise => (None, item)
  | Ok data =>
      if validate data fields then (Some item, item)
      else (Some item, item)
  end.

(** The item as the first statement of [process_item] leaves it. *)
Definition cleaned (item : CrawlItem) : CrawlItem :=
  set_content item (clean_text (content item)).

End Sanitizer.

(** *** [KeywordSpider] *)

Record KeywordSpider := mkSpider {
  keywords : list string;
  allowed_domains : list string
}.

(** [KeywordSpider(keywords=keywords, data_processor=...)]. *)
Definition new_spider (kws : option (list string)) : KeywordSpider :=
  {| keywords := default [] kws; allowed_domains := [] |}.

(** What [httpx.get] and [BeautifulSoup] deliver for a page: the stripped
    string of its [<title>] (empty when there is none) and its text. *)
Record Page := mkPage { title_string : string; text : string }.

(** [parse(url)], a generator: nothing when the request fails, else one item. *)
Definition parse (http_get : string → result Page) (u : string) : list CrawlItem :=
  match http_get u with
  | Raise => []
  | Ok pg =>
      let t := if PyStr.truthy (title_string pg) then title_string pg else u in
      [ {| url := u; title := t; content := text pg |} ]
  end.

(** *** [StorageManager] and [CrawlerManager] *)

Section Crawl.

Variable TAG_RE_sub : string → string.
Variable http_get : string → result Page.

(** Modelled from the spec: an export row, [CrawlItem.to_dict()] (the class is
    not among the sources). *)
Variable Row : Type.
Variable to_dict : CrawlItem → Row.

(** The storage collaborator is observed through its calls:
    [save_data(rows, filename)]. *)
Record CrawlerManager := mkCrawlerManager {
  data_processor : DataProcessor;
  url_manager : URLManager;
  spiders : list KeywordSpider;
  save_data_calls : list (list Row * string)
}.

(** [CrawlerManager(settings, storage, data_processor, url_manager)]. *)
Definition new_manager (dp : DataProcessor) (um : URLManager) : CrawlerManager :=
  {| data_processor := dp; url_manager := um; spiders := []; save_data_calls := [] |}.

(** The body of [for item in spider.parse(url)]: the rows appended for the
    items of one page. *)
Fixpoint process_items (dp : DataProcessor) (items : list CrawlItem)
    (fields : option (list string)) (rows : list Row) : list Row :=
  match items with
  | [] => rows
  | item :: items' =>
      match fst (process_item TAG_RE_sub dp item fields) with
      | Some processed => process_items dp items' fields (rows ++ [to_dict processed])
      | None => process_items dp items' fields rows
      end
  end.

Definition inspect {A} (a : A) : {b | a = b} := exist _ a eq_refl.

(** The [while True] loop of [start_crawl]: pop a URL, leave when there is
    none (or it is falsy), else process the items of its page. *)
Equations? crawl_loop (dp : DataProcessor) (fields : option (list string))
    (m : URLManager) (rows : list Row) : URLManager * list Row
    by wf (length (queue m)) lt :=
  crawl_loop dp fields m rows with inspect (get_next_url m) => {
    | exist _ (None, m') _ := (m', rows);
    | exist _ (Some u, m') _ :=
        if negb (PyStr.truthy u) then (m', rows)
        else crawl_loop dp fields m' (process_items dp (parse http_get u) fields rows) }.
Proof.
  match goal with E : get_next_url _ = _ |- _ => unfold get_next_url in E end.
  destruct (queue m); simplify_eq; simpl; lia.
Qed.

(** [start_crawl(urls, keywords, fields)]: the manager after the call and the
    returned [{"items": len(rows)}]. *)
Definition start_crawl (cm : CrawlerManager) (urls : list string)
    (kws : option (list string)) (fields : option (list string))
    : CrawlerManager * nat :=
  let spider := new_spider kws in
  let um := add_urls (url_manager cm) urls in
  let '(um', rows) := crawl_loop (data_processor cm) fields um [] in
  let calls :=
    match rows with
    | [] => save_data_calls cm
    | _ => save_data_calls cm ++ [(rows, "export")]
    end in
  ({| data_processor := data_processor cm;
      url_manager := um';
      spiders := spiders cm ++ [spider];
      save_data_calls := calls |},
   length rows).

(** [stop_crawling()]: "cooperative stop (stub)"; it returns [True] and
    changes nothing. *)
Definition stop_crawling (cm : CrawlerManager) : bool * CrawlerManager := (true, cm).

(** [get_crawl_status()]: [{"spiders": len(self.spiders)}]. *)
Definition get_crawl_status (cm : CrawlerManager) : nat := length (spiders cm).

(** The URLs the loop processes: those in front of the first falsy one. *)
Fixpoint until_falsy (q : list string) : list string :=
  match q with
  | [] => []
  | u :: q' => if PyStr.truthy u then u :: until_falsy q' else []
  end.

(** The URLs the loop leaves in the queue: those behind the first falsy one. *)
Fixpoint after_falsy (q : list string) : list string :=
  match q with
  | [] => []
  | u :: q' => if PyStr.truthy u then after_falsy q' else q'
  end.

(** The rows of one URL, and those of a whole queue. *)
Definition rows_of (dp : DataProcessor) (fields : option (list string))
    (u : string) : list Row :=
  process_items dp (parse http_get u) fields [].

Definition crawled_rows (dp : DataProcessor) (fields : option (list string))
    (q : list string) : list Row :=
  flat_map (rows_of dp fields) (until_falsy q).

End Crawl.

(** Scenarios: a page server that answers every request, one that fails on
    every request, one that fails on one URL; a sanitizer for text without
    tags; a manager as [WebScraperApp] wires it; an adapter whose answer lacks
    every field. *)
Definition page_ok : string → result Page :=
  λ _, Ok {| title_string := "A"; text := "hello" |}.
Definition page_down : string → result Page := λ _, Raise.
Definition page_b_down : string → result Page :=
  λ u, if String.eqb u "https://b" then Raise else page_ok u.
Definition no_tags : string → string := λ s, s.
Definition fresh : CrawlerManager CrawlItem :=
  new_manager CrawlItem new_processor (init default_max_urls).
Definition empty_answer : DataProcessor :=
  {| deepseek := {| adapter := {| extract_json := λ _ _, Ok (VDict ∅) |} |} |}.

(** *** Relevance score *)

Section Score.

(** Python's [float] is IEEE binary64.  [rnd] is its rounding to nearest, on
    the rationals: every float operation yields [rnd] of the exact result. *)
Variable rnd : Q → Q.

(** [float(n)] of an [int], as done by [n / 5000.0]. *)
Definition float_of_int (n : Z) : Q := rnd (inject_Z n).

(** [x / y] on floats. *)
Definition float_div (x y : Q) : Q := rnd (x / y)%Q.

(** [min(a, b)]: the second argument when it is smaller, else the first. *)
Definition py_min (a b : Q) : Q := if Qlt_le_dec b a then b else a.

(** The float quotient [len(content) / 5000.0]. *)
Definition quotient (content : string) : Q :=
  float_div (float_of_int (Z.of_nat (String.length content))) 5000.

(** [calculate_relevance_score(content)]. *)
Definition calculate_relevance_score (content : string) : Q :=
  py_min 1 (quotient content).

End Score.

End DeepScrape.

(** ** HTMLCrawler: the DeepSeek content parser *)

Module DeepSeek.

(** A [DeepSeekParser]: [enabled] is set by [__init__]; [remote content url
    title] stands for the body of the [try] block of [parse_content] up to
    [parsed_data] (prompt construction, the chat-completion request and
    [_parse_ai_response]): it yields the parsed data or raises. *)
Record DeepSeekParser := mkParser {
  enabled : bool;
  remote : string → string → string → result pyval
}.

(** [DeepSeekParser(api_key)]: enabled exactly when [api_key or
    os.getenv('DEEPSEEK_API_KEY')] is a non-empty string. *)
Definition init (api_key env_key : option string)
    (remote : string → string → string → result pyval) : DeepSeekParser :=
  let key := match api_key with
             | Some k => if PyStr.truthy k then Some k else env_key
             | None => env_key
             end in
  {| enabled := match key with Some k => PyStr.truthy k | None => false end;
     remote := remote |}.

(** [is_enabled()]. *)
Definition is_enabled (p : DeepSeekParser) : bool := enabled p.

Definition positive_words : list string :=
  ["good"; "great"; "excellent"; "amazing"; "wonderful"; "fantastic"].
Definition negative_words : list string :=
  ["bad"; "terrible"; "awful"; "horrible"; "poor"; "disappointing"].

(** [sum(1 for word in words if word in content.lower())]. *)
Definition count_in (words : list string) (content : string) : nat :=
  length (filter (λ word, PyStr.contains (PyStr.lower content) word = true) words).

(** The three sentiment labels of the fallback. *)
Definition sentiment_of (content : string) : string :=
  let pos_count := count_in positive_words content in
  let neg_count := count_in negative_words content in
  if (neg_count <? pos_count)%nat then "positive"
  else if (pos_count <? neg_count)%nat then "negative"
  else "neutral".

Section Library.

(** [list(set(re.findall(r'\b[A-Z][a-z]+\b', content)))]: the distinct
    capitalised words, in the order the runtime's set yields them. *)
Variable entity_set : string → list string.

(** [re.split(r'[.!?]+', content)]. *)
Variable re_split_sentences : string → list string.

(** [datetime.now().isoformat()]. *)
Variable now_isoformat : string.

(** The summary of the fallback: the first sentence, cut to 200 characters. *)
Definition summary_of (content : string) : string :=
  let sentences := re_split_sentences content in
  match sentences with
  | s0 :: _ =>
      if (200 <? String.length s0)%nat then PyStr.take 200 s0 +:+ "..." else s0
  | [] => ""
  end.

(** [_fallback_parse(content, url, title)]. *)
Definition _fallback_parse (content url title : string) : gmap string pyval :=
  let word_count := PyStr.count_words false content in
  let sentiment := sentiment_of content in
  let entities := take 10 (entity_set content) in
  let summary := summary_of content in
  list_to_map
    [ ("summary", VStr (PyStr.strip summary));
      ("entities", Py.strs entities);
      ("topics", VList []);
      ("sentiment", VStr sentiment);
      ("key_points", VList []);
      ("structured_data",
        VDict (list_to_map
          [ ("word_count", VInt (Z.of_nat word_count));
            ("content_type", VStr "webpage");
            ("parser_used", VStr "fallback") ]));
      ("analysis_timestamp", VStr now_isoformat);
      ("parser_used", VStr "fallback") ].

(** The dictionary returned on the enabled path, from [parsed_data]. *)
Definition analysis_of (parsed_data : gmap string pyval) : gmap string pyval :=
  list_to_map
    [ ("summary", Py.get parsed_data "summary" (VStr ""));
      ("entities", Py.get parsed_data "entities" (VList []));
      ("topics", Py.get parsed_data "topics" (VList []));
      ("sentiment", Py.get parsed_data "sentiment" (VStr "neutral"));
      ("key_points", Py.get parsed_data "key_points" (VList []));
      ("structured_data", Py.get parsed_data "structured_data" (VDict ∅));
      ("analysis_timestamp", VStr now_isoformat);
      ("parser_used", VStr "deepseek") ].

(** [parse_content(content, url, title)].  Any exception inside the [try]
    block, also [parsed_data.get] on a value that is no dictionary, leads to
    the fallback. *)
Definition parse_content (p : DeepSeekParser) (content url title : string)
    : gmap string pyval :=
  if negb (enabled p) then _fallback_parse content url title
  else
    match remote p content url title with
    | Ok (VDict parsed_data) => analysis_of parsed_data
    | Ok _ => _fallback_parse content url title
    | Raise => _fallback_parse content url title
    end.

End Library.

(** The keys every analysis result must carry, and the sentiment labels. *)
Definition required_keys : list string :=
  ["summary"; "entities"; "topics"; "sentiment"; "key_points"; "structured_data"].
Definition sentiments : list string := ["positive"; "neutral"; "negative"].

(** Scenario: a parser made without any API key. *)
Definition no_key : DeepSeekParser := init None None (λ _ _ _, Raise).

End DeepSeek.

(** ** HTMLCrawler: the item pipelines *)

Module Pipelines.

(** An item is a dictionary from field names to values. *)
Abbreviation Item := (gmap string pyval).

(** What [process_item] does with an item: it returns it, raises [DropItem]
    with a message, or raises another exception. *)
Inductive outcome :=
| Forward (item : Item)
| DropItem (message : string)
| Exception.

(** The attributes of the spider the pipelines look at; [None] when the
    spider has no such attribute ([hasattr] is false). *)
Record Spider := mkSpider {
  filter_by_keywords : option bool;
  use_ai_keywords : option bool
}.

(** [hasattr(spider, a) and spider.a]. *)
Definition flag (a : option bool) : bool := default false a.

(** *** [KeywordMatchingPipeline] *)

Record KeywordMatchingPipeline := mkKeywordMatching { keywords : list string }.

(** [KeywordMatchingPipeline(keywords)]: [keywords or []], lower-cased. *)
Definition new_keyword_matching (kws : option (list string)) : KeywordMatchingPipeline :=
  {| keywords := PyStr.lower <$> default [] kws |}.

Section Format.

(** [str(v)] for a value that is no string, as an f-string renders it. *)
Variable str_of : pyval → string.

(** An f-string field [{v}]. *)
Definition format (v : pyval) : string :=
  match v with VStr s => s | _ => str_of v end.

(** [f"{item.get('title', '')} {item.get('content', '')}".lower()]. *)
Definition text_to_search (item : Item) : string :=
  PyStr.lower (format (Py.get item "title" (VStr "")) +:+ " " +:+
               format (Py.get item "content" (VStr ""))).

(** The keywords of the pipeline that occur in the text of the item. *)
Definition matched_keywords (p : KeywordMatchingPipeline) (item : Item) : list string :=
  filter (λ keyword, PyStr.contains (text_to_search item) keyword = true) (keywords p).

(** [KeywordMatchingPipeline.process_item(item, spider)]. *)
Definition keyword_process_item (p : KeywordMatchingPipeline) (item : Item)
    (spider : Spider) : outcome :=
  match keywords p with
  | [] => Forward item
  | _ =>
      let matched := matched_keywords p item in
      let item := <["matched_keywords" := Py.strs matched]> item in
      if flag (filter_by_keywords spider) then
        match matched with
        | [] =>
            match item !! "url" with
            | Some u => DropItem ("No matching keywords found in " +:+ format u)
            | None => Exception
            end
        | _ => Forward item
        end
      else Forward item
  end.

End Format.

(** *** [DeepSeekAnalysisPipeline] *)

(** The parser object the pipeline holds, seen through the three methods it
    calls; each call returns a value or raises. *)
Record Analyzer := mkAnalyzer {
  is_enabled : bool;
  parse_content : pyval → pyval → pyval → result pyval;
  extract_keywords_ai : pyval → result pyval
}.

Record DeepSeekAnalysisPipeline := mkAnalysis {
  parser : option Analyzer;
  enabled : bool
}.

(** [open_spider]: the parser made by [create_deepseek_parser()], when the
    module could be imported and the factory did not raise. *)
Definition open_spider (created : option (result Analyzer)) : DeepSeekAnalysisPipeline :=
  match created with
  | Some (Ok a) => {| parser := Some a; enabled := is_enabled a |}
  | Some Raise => {| parser := None; enabled := false |}
  | None => {| parser := None; enabled := false |}
  end.

Section Sets.

(** [list(set(l))]: the distinct members of [l], in the order the runtime's
    set yields them. *)
Variable set_order : list pyval → list pyval.

(** The one-character strings of a string. *)
Fixpoint chars (s : string) : list pyval :=
  match s with
  | EmptyString => []
  | String c s' => VStr (String c EmptyString) :: chars s'
  end.

(** [list(set(existing_keywords + ai_keywords))]. *)
Definition combine_keywords (existing ai : pyval) : result pyval :=
  match existing, ai with
  | VList l1, VList l2 =>
      if forallb Py.hashable (l1 ++ l2) then Ok (VList (set_order (l1 ++ l2)))
      else Raise
  | VStr s1, VStr s2 => Ok (VList (set_order (chars (s1 +:+ s2))))
  | _, _ => Raise
  end.

(** The seven assignments [item['ai_...'] = analysis.get(...)]. *)
Definition set_analysis (analysis : gmap string pyval) (item : Item) : Item :=
  let item := <["ai_summary" := Py.get analysis "summary" (VStr "")]> item in
  let item := <["ai_entities" := Py.get analysis "entities" (VList [])]> item in
  let item := <["ai_topics" := Py.get analysis "topics" (VList [])]> item in
  let item := <["ai_sentiment" := Py.get analysis "sentiment" (VStr "neutral")]> item in
  let item := <["ai_key_points" := Py.get analysis "key_points" (VList [])]> item in
  let item := <["ai_structured_data" := Py.get analysis "structured_data" (VDict ∅)]> item in
  <["ai_analysis_timestamp" := Py.get analysis "analysis_timestamp" (VStr "")]> item.

(** The body of the [try] block once the analysis has been stored: the
    optional AI keywords.  An exception leaves what was assigned so far. *)
Definition add_ai_keywords (a : Analyzer) (content : pyval) (item : Item) : Item :=
  match extract_keywords_ai a content with
  | Raise => item
  | Ok ai_keywords =>
      let existing_keywords := Py.get item "matched_keywords" (VList []) in
      match combine_keywords existing_keywords ai_keywords with
      | Raise => item
      | Ok combined_keywords =>
          <["enhanced_keywords" := combined_keywords]>
            (<["ai_keywords" := ai_keywords]> item)
      end
  end.

(** [DeepSeekAnalysisPipeline.process_item(item, spider)]; the calls to
    [spider.logger] are not modelled. *)
Definition analysis_process_item (p : DeepSeekAnalysisPipeline) (item : Item)
    (spider : Spider) : outcome :=
  match enabled p, parser p with
  | false, _ | _, None => Forward item
  | true, Some a =>
      let content := Py.get item "content" (VStr "") in
      let title := Py.get item "title" (VStr "") in
      let url := Py.get item "url" (VStr "") in
      if negb (Py.truthy content) then Forward item
      else
        match parse_content a content url title with
        | Raise => Forward item
        | Ok (VDict analysis) =>
            let item := set_analysis analysis item in
            if flag (use_ai_keywords spider)
            then Forward (add_ai_keywords a content item)
            else Forward item
        | Ok _ => Forward item
        end
  end.

(** The items a list of inputs leaves behind the stage. *)
Definition survivors (p : DeepSeekAnalysisPipeline) (spider : Spider)
    (items : list Item) : list Item :=
  omap (λ item, match analysis_process_item p item spider with
                | Forward item' => Some item'
                | _ => None
                end) items.

End Sets.

(** *** The pipeline chains of [run_crawler.py] *)

Section Chain.

Variable str_of : pyval → string.
Variable set_order : list pyval → list pyval.

(** [ITEM_PIPELINES] without DeepSeek: [KeywordMatchingPipeline] (300), then
    the export pipeline (400), which returns every item it is given. *)
Definition pipeline_basic (kp : KeywordMatchingPipeline) (item : Item)
    (spider : Spider) : outcome :=
  keyword_process_item str_of kp item spider.

(** [ITEM_PIPELINES] with DeepSeek: [KeywordMatchingPipeline] (300),
    [DeepSeekAnalysisPipeline] (350), then the export pipeline (400).  An item
    that a stage drops is not shown to the stages behind it. *)
Definition pipeline_with_analysis (kp : KeywordMatchingPipeline)
    (ap : DeepSeekAnalysisPipeline) (item : Item) (spider : Spider) : outcome :=
  match keyword_process_item str_of kp item spider with
  | Forward item' => analysis_process_item set_order ap item' spider
  | dropped => dropped
  end.

End Chain.

(** Whether an item came out of a chain. *)
Definition is_forward (o : outcome) : bool :=
  match o with Forward _ => true | _ => false end.

(** The fields the analysis stage may write. *)
Definition enrichment_fields : list string :=
  ["ai_summary"; "ai_entities"; "ai_topics"; "ai_sentiment"; "ai_key_points";
   "ai_structured_data"; "ai_analysis_timestamp"; "ai_keywords"; "enhanced_keywords"].

(** Two items agree on every field the analysis stage does not own. *)
Definition same_crawl_fields (item item' : Item) : Prop :=
  ∀ k : string, k ∉ enrichment_fields → item' !! k = item !! k.

(** Scenarios: the item of the specification's keyword example; a spider that
    filters by keywords, as [KeywordHTMLCrawler] does; an analyzer that raises
    at every call, and one that answers. *)
Definition guide : Item :=
  list_to_map [ ("url", VStr "http://a"); ("title", VStr "Python Guide");
                ("content", VStr "intro to python basics") ].

Definition strict_spider : Spider :=
  {| filter_by_keywords := Some true; use_ai_keywords := Some false |}.

Definition broken : DeepSeekAnalysisPipeline :=
  {| parser := Some {| is_enabled := true;
                       parse_content := λ _ _ _, Raise;
                       extract_keywords_ai := λ _, Raise |};
     enabled := true |}.

Definition answering : DeepSeekAnalysisPipeline :=
  {| parser := Some {| is_enabled := true;
                       parse_content := λ _ _ _,
                         Ok (VDict {[ "summary" := VStr "a guide" ]});
                       extract_keywords_ai := λ _, Ok (Py.strs ["guide"]) |};
     enabled := true |}.

End Pipelines.


(** * Properties *)

(** ** Python strings *)

Module PyStrFacts.

Example lower_title : PyStr.lower "Python Guide" = "python guide".
Proof. reflexivity. Qed.

Example contains_keyword :
  PyStr.contains "python guide intro to python basics" "python" = true ∧
  PyStr.contains "python guide intro to python basics" "rust" = false ∧
  PyStr.contains "abc" "" = true.
Proof. by vm_compute. Qed.

Example strip_spaces : PyStr.strip "  a b  " = "a b".
Proof. reflexivity. Qed.

Example count_words_three : PyStr.count_words false " one two  three " = 3%nat.
Proof. reflexivity. Qed.

Lemma contains_empty (s : string) : PyStr.contains s "" = true.
Proof. by destruct s. Qed.

Lemma lower_length (s : string) : String.length (PyStr.lower s) = String.length s.
Proof. induction s as [|c s IH]; simpl; [done|by rewrite IH]. Qed.

End PyStrFacts.

(** ** The frontier *)

Module FrontierFacts.

Import Frontier.

Lemma add_url_visited (m : URLManager) (u : string) :
  visited (add_url m u) = visited m.
Proof. unfold add_url. by destruct (_ && _). Qed.

Lemma add_url_max (m : URLManager) (u : string) : max (add_url m u) = max m.
Proof. unfold add_url. by destruct (_ && _). Qed.

Lemma add_urls_visited (urls : list string) (m : URLManager) :
  visited (add_urls m urls) = visited m.
Proof.
  unfold add_urls. revert m.
  induction urls as [|u urls IH]; intros m; simpl; [done|].
  by rewrite IH, add_url_visited.
Qed.

Lemma add_urls_max (urls : list string) (m : URLManager) :
  max (add_urls m urls) = max m.
Proof.
  unfold add_urls. revert m.
  induction urls as [|u urls IH]; intros m; simpl; [done|].
  by rewrite IH, add_url_max.
Qed.

Lemma add_url_enqueue (m : URLManager) (u : string) :
  u ∉ visited m → Z.of_nat (length (queue m)) < max m →
  add_url m u = {| visited := visited m; queue := queue m ++ [u]; max := max m |}.
Proof.
  intros Hv Hlt. unfold add_url.
  rewrite bool_decide_eq_true_2 by done.
  apply Z.ltb_lt in Hlt. by rewrite Hlt.
Qed.

Lemma add_url_skip (m : URLManager) (u : string) :
  u ∈ visited m ∨ max m ≤ Z.of_nat (length (queue m)) → add_url m u = m.
Proof.
  intros [Hv|Hge]; unfold add_url.
  - rewrite bool_decide_eq_false_2; [done|]. intros Hn. by apply Hn.
  - apply Z.ltb_ge in Hge. rewrite Hge. by rewrite andb_false_r.
Qed.

(** What one [add_urls] call appends: the eligible URLs, in order, as far as
    there is room. *)
Lemma add_urls_queue (urls : list string) (m : URLManager) :
  queue (add_urls m urls) = queue m ++ take (room m) (eligible m urls).
Proof.
  unfold add_urls, eligible. revert m.
  induction urls as [|u urls IH]; intros m; simpl.
  { by rewrite filter_nil, take_nil, app_nil_r. }
  rewrite IH. destruct (decide (u ∈ visited m)) as [Hv|Hv].
  { rewrite add_url_skip by auto. by rewrite filter_cons_False by auto. }
  rewrite filter_cons_True by done.
  destruct (Z.lt_ge_cases (Z.of_nat (length (queue m))) (max m)) as [Hlt|Hge].
  - rewrite add_url_enqueue by done. unfold room. simpl.
    rewrite length_app. simpl.
    replace (Z.to_nat (max m - Z.of_nat (length (queue m))))
      with (S (Z.to_nat (max m - Z.of_nat (length (queue m) + 1)%nat))) by lia.
    simpl. by rewrite <- app_assoc.
  - rewrite add_url_skip by auto. unfold room.
    replace (Z.to_nat (max m - Z.of_nat (length (queue m)))) with 0%nat by lia.
    done.
Qed.

Lemma occurrences_app (u : string) (q1 q2 : list string) :
  occurrences u (q1 ++ q2) = (occurrences u q1 + occurrences u q2)%nat.
Proof. unfold occurrences. by rewrite filter_app, length_app. Qed.

Lemma occurrences_absent (u : string) (q : list string) :
  u ∉ q → occurrences u q = 0%nat.
Proof.
  unfold occurrences. induction q as [|v q IH]; intros Hu; [done|].
  apply not_elem_of_cons in Hu as [Hne Hq].
  rewrite filter_cons_False by congruence. auto.
Qed.

Lemma add_urls_keeps_visited_out (m : URLManager) (urls : list string) (u : string) :
  u ∈ visited m → occurrences u (queue (add_urls m urls)) = occurrences u (queue m).
Proof.
  intros Hu. rewrite add_urls_queue, occurrences_app.
  rewrite (occurrences_absent u (take _ _)); [lia|].
  intros Hin. apply elem_of_take in Hin as (i & Hin & _).
  apply list_elem_of_lookup_2 in Hin.
  unfold eligible in Hin. apply list_elem_of_filter in Hin as [Hn _]. done.
Qed.

(** The queue stays within the capacity under every operation. *)
Lemma step_bound (m : URLManager) (o : op) :
  within_capacity m → within_capacity (step m o).
Proof.
  unfold within_capacity. intros Hb. destruct o as [urls| |u]; simpl.
  - rewrite add_urls_max, add_urls_queue, length_app, length_take.
    unfold room. lia.
  - unfold get_next_url. destruct (queue m) eqn:Hq; simpl in *; [by rewrite Hq|lia].
  - done.
Qed.

Lemma step_max (m : URLManager) (o : op) : max (step m o) = max m.
Proof.
  destruct o as [urls| |u]; simpl; [apply add_urls_max| |done].
  unfold get_next_url. by destruct (queue m).
Qed.

Lemma run_max (ops : list op) (m : URLManager) : max (run m ops) = max m.
Proof.
  unfold run. revert m. induction ops as [|o ops IH]; intros m; simpl; [done|].
  by rewrite IH, step_max.
Qed.

Lemma run_bound (ops : list op) (m : URLManager) :
  within_capacity m → within_capacity (run m ops).
Proof.
  unfold run. revert m. induction ops as [|o ops IH]; intros m Hb; simpl; [done|].
  apply IH. by apply step_bound.
Qed.

Lemma step_keeps_visited_out (m : URLManager) (o : op) (u : string) :
  u ∈ visited m →
  u ∈ visited (step m o) ∧
  (occurrences u (queue (step m o)) ≤ occurrences u (queue m))%nat.
Proof.
  intros Hu. destruct o as [urls| |v]; simpl.
  - rewrite add_urls_visited, add_urls_keeps_visited_out by done. auto.
  - unfold get_next_url. destruct (queue m) as [|w q] eqn:Hq; simpl.
    + rewrite Hq. auto.
    + split; [done|]. change (w :: q) with ([w] ++ q).
      rewrite occurrences_app. lia.
  - split; [set_solver|done].
Qed.

Lemma run_keeps_visited_out (ops : list op) (m : URLManager) (u : string) :
  u ∈ visited m →
  (occurrences u (queue (run m ops)) ≤ occurrences u (queue m))%nat.
Proof.
  unfold run. revert m. induction ops as [|o ops IH]; intros m Hu; simpl; [done|].
  destruct (step_keeps_visited_out m o u Hu) as [Hv Hle].
  specialize (IH _ Hv). lia.
Qed.

(** C1, as stated, fails: after [add_urls(["http://a","http://a"])] on a fresh
    frontier the queue holds the URL twice, and the second [get_next_url()]
    returns it again instead of [None]. *)
Lemma duplicate_is_enqueued :
  queue twice = ["http://a"; "http://a"] ∧
  occurrences "http://a" (queue twice) = 2%nat ∧
  fst (get_next_url twice) = Some "http://a" ∧
  fst (get_next_url (snd (get_next_url twice))) = Some "http://a".
Proof. by vm_compute. Qed.

(** C1, amended: a URL that is in [visited] is never enqueued, by [add_urls]
    or by any other operation: under any sequence of operations its number of
    occurrences in the queue does not grow, and an [add_urls] call leaves it
    as it is.  A URL that is not in [visited] is not checked against the
    queue: after [add_urls(["http://a","http://a"])] on a fresh frontier the
    first and the second [get_next_url()] return ["http://a"] and the third
    returns [None]. *)
Theorem visited_url_never_enqueued :
  (∀ (m : URLManager) (ops : list op) (u : string),
     u ∈ visited m →
     (occurrences u (queue (run m ops)) ≤ occurrences u (queue m))%nat) ∧
  (∀ (m : URLManager) (urls : list string) (u : string),
     u ∈ visited m →
     occurrences u (queue (add_urls m urls)) = occurrences u (queue m)) ∧
  (let first := get_next_url twice in
   let second := get_next_url (snd first) in
   let third := get_next_url (snd second) in
   fst first = Some "http://a" ∧ fst second = Some "http://a" ∧ fst third = None).
Proof.
  split; [|split].
  - intros m ops u Hu. by apply run_keeps_visited_out.
  - intros m urls u Hu. by apply add_urls_keeps_visited_out.
  - by vm_compute.
Qed.

(** A visited URL offered again, between other URLs, is left out. *)
Lemma visited_url_never_enqueued_witness :
  occurrences "http://a"
    (queue (add_urls (mark_visited (init 5) "http://a")
              ["http://b"; "http://a"; "http://c"])) = 0%nat.
Proof.
  rewrite (proj1 (proj2 visited_url_never_enqueued)
             (mark_visited (init 5) "http://a")
             ["http://b"; "http://a"; "http://c"] "http://a").
  - reflexivity.
  - simpl. apply elem_of_union_l, elem_of_singleton. reflexivity.
Defined.

(** C8: whatever sequence of [add_urls], [get_next_url] and [mark_visited] has
    run on a frontier created with capacity [max_urls], its queue holds at
    most [max_urls] URLs (none, if [max_urls] is negative); and an [add_urls]
    call appends the not-visited URLs of its argument, in order, as long as
    there is room, and drops the rest: it raises nothing and keeps no record
    of what it dropped. *)
Theorem capacity_bound (max_urls : Z) (ops : list op) :
  let m := run (init max_urls) ops in
  max m = max_urls ∧
  Z.of_nat (length (queue m)) ≤ Z.max 0 max_urls ∧
  (0 ≤ max_urls → Z.of_nat (length (queue m)) ≤ max_urls) ∧
  ∀ urls : list string,
    queue (add_urls m urls) = queue m ++ take (room m) (eligible m urls) ∧
    visited (add_urls m urls) = visited m ∧
    max (add_urls m urls) = max m.
Proof.
  intros m.
  assert (Hm : max m = max_urls) by (unfold m; by rewrite run_max).
  assert (Hb : within_capacity m).
  { apply run_bound. unfold within_capacity. simpl. lia. }
  unfold within_capacity in Hb. rewrite Hm in Hb.
  split; [done|]. split; [done|]. split; [lia|].
  intros urls. by rewrite add_urls_queue, add_urls_visited, add_urls_max.
Qed.

(** A frontier of capacity 2 that is offered three URLs, gives one out and is
    offered two more. *)
Lemma capacity_bound_witness :
  Z.of_nat (length (queue (run (init 2)
    [AddUrls ["a"; "b"; "c"]; NextUrl; AddUrls ["d"; "e"]]))) ≤ 2.
Proof.
  apply (capacity_bound 2 [AddUrls ["a"; "b"; "c"]; NextUrl; AddUrls ["d"; "e"]]).
  lia.
Defined.

Example capacity_drops_excess :
  queue (run (init 2) [AddUrls ["a"; "b"; "c"]; NextUrl; AddUrls ["d"; "e"]])
  = ["b"; "d"].
Proof. by vm_compute. Qed.

End FrontierFacts.


(** ** The crawl loop and the data processor *)

Module DeepScrapeFacts.

Import Frontier DeepScrape.

Section Crawl.

Variable TAG_RE_sub : string → string.
Variable http_get : string → result Page.
Variable Row : Type.
Variable to_dict : CrawlItem → Row.

Local Abbreviation crawl_loop := (crawl_loop TAG_RE_sub http_get Row to_dict).
Local Abbreviation start_crawl := (start_crawl TAG_RE_sub http_get Row to_dict).
Local Abbreviation process_items := (process_items TAG_RE_sub Row to_dict).
Local Abbreviation rows_of := (rows_of TAG_RE_sub http_get Row to_dict).
Local Abbreviation crawled_rows := (crawled_rows TAG_RE_sub http_get Row to_dict).
Local Abbreviation process_item := (process_item TAG_RE_sub).
Local Abbreviation clean_text := (clean_text TAG_RE_sub).
Local Abbreviation cleaned := (cleaned TAG_RE_sub).

Lemma get_next_url_visited (m : URLManager) :
  visited (snd (get_next_url m)) = visited m.
Proof. unfold get_next_url. by destruct (queue m). Qed.

Lemma process_item_cases (dp : DataProcessor) (item : CrawlItem)
    (fields : option (list string)) :
  process_item dp item fields =
    match parse_data (deepseek dp) (clean_text (content item)) fields with
    | Raise => (None, cleaned item)
    | Ok _ => (Some (cleaned item), cleaned item)
    end.
Proof.
  unfold DeepScrape.process_item, DeepScrape.cleaned. simpl.
  destruct (parse_data _ _ _) as [data|]; [|done].
  by destruct (validate data fields).
Qed.

(** Rows are only ever appended. *)
Lemma process_items_app (dp : DataProcessor) (fields : option (list string))
    (items : list CrawlItem) (rows : list Row) :
  process_items dp items fields rows = rows ++ process_items dp items fields [].
Proof.
  revert rows. induction items as [|item items IH]; intros rows; simpl.
  { by rewrite app_nil_r. }
  destruct (fst _); [|apply IH].
  rewrite (IH (rows ++ _)), (IH [_]). by rewrite <- app_assoc.
Qed.

Lemma get_next_url_Some (m m' : URLManager) (u : string) :
  get_next_url m = (Some u, m') →
  queue m = u :: queue m' ∧ visited m' = visited m ∧ max m' = max m.
Proof. unfold get_next_url. destruct (queue m); intros; by simplify_eq. Qed.

Lemma get_next_url_None (m m' : URLManager) :
  get_next_url m = (None, m') → queue m = [] ∧ m' = m.
Proof. unfold get_next_url. destruct (queue m); intros; by simplify_eq. Qed.

(** The loop in closed form: it pops the URLs up to and including the first
    falsy one, and appends the rows of those in front of it. *)
Lemma crawl_loop_closed_form (dp : DataProcessor) (fields : option (list string))
    (m : URLManager) (rows : list Row) :
  crawl_loop dp fields m rows =
    ({| visited := visited m; queue := after_falsy (queue m); max := max m |},
     rows ++ crawled_rows dp fields (queue m)).
Proof.
  funelim (crawl_loop dp fields m rows).
  - match goal with E : get_next_url _ = _ |- _ =>
      destruct (get_next_url_Some _ _ _ E) as (Hq & Hv & Hm) end.
    rewrite Hq. unfold DeepScrape.crawled_rows. simpl.
    destruct (PyStr.truthy u) eqn:Hu; simpl.
    + match goal with IH : DeepScrape.crawl_loop _ _ _ _ _ _ _ _ = _ |- _ =>
        rewrite IH end.
      rewrite Hv, Hm. f_equal. unfold DeepScrape.crawled_rows, DeepScrape.rows_of.
      rewrite process_items_app, <- app_assoc. done.
    + rewrite app_nil_r. destruct m'; simpl in *; by subst.
  - match goal with E : get_next_url _ = _ |- _ =>
      destruct (get_next_url_None _ _ E) as (Hq & ->) end.
    rewrite Hq. unfold DeepScrape.crawled_rows. simpl. rewrite app_nil_r.
    destruct m; simpl in *; by subst.
Qed.

(** [start_crawl] in closed form. *)
Lemma start_crawl_closed_form (cm : CrawlerManager Row) (urls : list string)
    (kws fields : option (list string)) :
  let um := add_urls (url_manager Row cm) urls in
  let rows := crawled_rows (data_processor Row cm) fields (queue um) in
  start_crawl cm urls kws fields =
    ({| data_processor := data_processor Row cm;
        url_manager := {| visited := visited um; queue := after_falsy (queue um);
                          max := max um |};
        spiders := spiders Row cm ++ [new_spider kws];
        save_data_calls :=
          match rows with
          | [] => save_data_calls Row cm
          | _ => save_data_calls Row cm ++ [(rows, "export")]
          end |},
     length rows).
Proof.
  simpl. unfold DeepScrape.start_crawl. by rewrite crawl_loop_closed_form.
Qed.

(** C4, amended: [get_next_url] does not mark the URL it hands out as
    visited, and neither does the crawl loop: [start_crawl] never calls
    [mark_visited], so the frontier's [visited] set is after the crawl what it
    was before. *)
Theorem crawl_leaves_visited_unchanged (cm : CrawlerManager Row)
    (urls : list string) (kws fields : option (list string)) :
  visited (url_manager Row (fst (start_crawl cm urls kws fields)))
    = visited (url_manager Row cm) ∧
  ∀ m : URLManager, visited (snd (get_next_url m)) = visited m.
Proof.
  split; [|apply get_next_url_visited].
  rewrite start_crawl_closed_form. simpl.
  apply FrontierFacts.add_urls_visited.
Qed.

(** C2, amended: the crawl loop ends when the frontier hands out no URL (there
    is no exit on a stop request: [stop_crawling] changes nothing).  Then
    [start_crawl] calls [save_data] once, with all accumulated rows and the
    name ["export"], if there is at least one row, and not at all if there is
    none; it returns the number of rows. *)
Theorem export_once_unless_empty (cm : CrawlerManager Row)
    (urls : list string) (kws fields : option (list string)) :
  let rows := crawled_rows (data_processor Row cm) fields
                (queue (add_urls (url_manager Row cm) urls)) in
  let r := start_crawl cm urls kws fields in
  snd r = length rows ∧
  save_data_calls Row (fst r) =
    save_data_calls Row cm ++
    match rows with [] => [] | _ => [(rows, "export")] end ∧
  stop_crawling Row (fst r) = (true, fst r).
Proof.
  simpl. rewrite start_crawl_closed_form. simpl.
  split; [done|]. split; [|done].
  destruct (crawled_rows _ _ _); simpl; [by rewrite app_nil_r|done].
Qed.

(** C10: [process_item] assigns the cleaned text to [item.content] before
    anything can fail, so the caller's item holds the cleaned text whatever the
    call returns; it returns [None] exactly when [parse_data] raises, and the
    item itself otherwise.  The error path exists: with the adapter of the
    sources and [fields = None] the call returns [None], and the item is
    cleaned all the same. *)
Theorem process_item_cleans_before_failing (dp : DataProcessor)
    (item : CrawlItem) (fields : option (list string)) :
  let r := process_item dp item fields in
  snd r = set_content item (clean_text (content item)) ∧
  (fst r = None ∨ fst r = Some (snd r)) ∧
  (fst r = None ↔
   parse_data (deepseek dp) (clean_text (content item)) fields = Raise) ∧
  process_item new_processor item None
    = (None, set_content item (clean_text (content item))).
Proof.
  simpl. rewrite process_item_cases.
  split; [|split; [|split]].
  - by destruct (parse_data _ _ _).
  - destruct (parse_data _ _ _); simpl; auto.
  - destruct (parse_data _ _ _); simpl; split; intros; congruence.
  - done.
Qed.

(** With the adapter of the sources a validation never fails: the record
    has every requested field. *)
Lemma stub_adapter_validates (text : string) (fs : list string) :
  ∃ data, extract_json stub_adapter text (Some fs) = Ok data ∧
          validate data (Some fs) = true.
Proof.
  eexists. split; [done|]. simpl.
  apply forallb_forall. intros k Hk. apply bool_decide_eq_true.
  apply list_elem_of_In in Hk.
  apply elem_of_dom. rewrite dom_list_to_map_L.
  rewrite <- list_fmap_compose. simpl.
  apply elem_of_list_to_set. by rewrite list_fmap_id.
Qed.

(** A record that fails validation comes back from [process_item] as a
    processed item: both branches of the test return the item. *)
Lemma failed_validation_returns_item (dp : DataProcessor) (item : CrawlItem)
    (fields : option (list string)) (data : pyval) :
  parse_data (deepseek dp) (clean_text (content item)) fields = Ok data →
  validate data fields = false →
  fst (process_item dp item fields) = Some (cleaned item).
Proof. intros Hp _. by rewrite process_item_cases, Hp. Qed.


End Crawl.

(** C4, as stated, fails: after a crawl of one URL that yields one row, the URL
    is not in [visited]. *)
Lemma crawled_url_not_marked :
  let r := start_crawl no_tags page_ok CrawlItem id fresh ["https://a"] None
             (Some ["title"; "url"]) in
  snd r = 1%nat ∧ visited (url_manager CrawlItem (fst r)) = ∅.
Proof. by vm_compute. Qed.

(** C2, as stated, fails: a crawl that accumulates no row (here the only
    request fails) ends without any call of [save_data]. *)
Lemma empty_crawl_exports_nothing :
  let r := start_crawl no_tags page_down CrawlItem id fresh ["https://a"] None
             (Some ["title"; "url"]) in
  snd r = 0%nat ∧ save_data_calls CrawlItem (fst r) = [].
Proof. by vm_compute. Qed.

Example one_row_exported_once :
  save_data_calls CrawlItem
    (fst (start_crawl no_tags page_ok CrawlItem id fresh ["https://a"] None
            (Some ["title"; "url"])))
  = [([ {| url := "https://a"; title := "A"; content := "hello" |} ], "export")].
Proof. by vm_compute. Qed.

(** Seeds A, B, C with a failing fetch of B: the rows of A and C. *)
Example failed_fetch_is_skipped :
  save_data_calls CrawlItem
    (fst (start_crawl no_tags page_b_down CrawlItem id fresh
            ["https://a"; "https://b"; "https://c"] None (Some ["title"; "url"])))
  = [([ {| url := "https://a"; title := "A"; content := "hello" |};
        {| url := "https://c"; title := "A"; content := "hello" |} ], "export")].
Proof. by vm_compute. Qed.

End DeepScrapeFacts.

(** ** The relevance score *)

Module ScoreFacts.

Import DeepScrape.

Lemma py_min_is_Qmin (a b : Q) : (py_min a b == Qmin a b)%Q.
Proof.
  unfold py_min. destruct (Qlt_le_dec b a) as [Hlt|Hle].
  - symmetry. apply Q.min_r. by apply Qlt_le_weak.
  - symmetry. by apply Q.min_l.
Qed.

Section Rounding.

Local Open Scope Q_scope.

Variable rnd : Q → Q.

(** Rounding to nearest is monotone, and zero is a float. *)
Hypothesis rnd_monotone : ∀ x y : Q, x <= y → rnd x <= rnd y.
Hypothesis rnd_zero : rnd 0 == 0.

Local Abbreviation calculate_relevance_score := (calculate_relevance_score rnd).

Local Abbreviation quotient := (quotient rnd).

Lemma quotient_nonneg (content : string) : 0 <= quotient content.
Proof.
  unfold DeepScrape.quotient, float_div, float_of_int.
  rewrite <- rnd_zero at 1. apply rnd_monotone.
  apply Qle_shift_div_l; [reflexivity|].
  rewrite Qmult_0_l. rewrite <- rnd_zero. apply rnd_monotone.
  change 0 with (inject_Z 0). rewrite <- Zle_Qle. lia.
Qed.

Lemma quotient_monotone (a b : string) :
  (String.length a <= String.length b)%nat → quotient a <= quotient b.
Proof.
  intros Hab. unfold DeepScrape.quotient, float_div, float_of_int.
  apply rnd_monotone. apply Qmult_le_compat_r; [|discriminate].
  apply rnd_monotone. rewrite <- Zle_Qle. lia.
Qed.


End Rounding.


Example score_of_short_text :
  (calculate_relevance_score (λ x, x) "hello world" == 11 / 5000)%Q.
Proof. reflexivity. Qed.

End ScoreFacts.

(** ** The content parser *)

Module DeepSeekFacts.

Import DeepSeek.

Lemma sentiment_of_enumerated (content : string) :
  sentiment_of content ∈ sentiments.
Proof.
  unfold sentiment_of, sentiments.
  destruct (_ <? _)%nat; [|destruct (_ <? _)%nat]; set_solver.
Qed.

Section Library.

Variable entity_set : string → list string.
Variable re_split_sentences : string → list string.
Variable now_isoformat : string.

Local Abbreviation _fallback_parse :=
  (_fallback_parse entity_set re_split_sentences now_isoformat).
Local Abbreviation parse_content :=
  (parse_content entity_set re_split_sentences now_isoformat).

Lemma fallback_keys (content url title : string) :
  Forall (λ k, is_Some (_fallback_parse content url title !! k)) required_keys.
Proof. unfold required_keys. repeat constructor; eexists; reflexivity. Qed.

Lemma fallback_sentiment (content url title : string) :
  _fallback_parse content url title !! "sentiment"
    = Some (VStr (sentiment_of content)).
Proof. reflexivity. Qed.

(** When the [try] block fails, the result is the fallback. *)
Lemma parse_content_fails_open (p : DeepSeekParser) (content url title : string) :
  (∀ d, remote p content url title ≠ Ok (VDict d)) →
  parse_content p content url title = _fallback_parse content url title.
Proof.
  intros Hr. unfold DeepSeek.parse_content.
  destruct (enabled p); simpl; [|done].
  destruct (remote p content url title) as [[]|]; try done.
  by destruct (Hr d).
Qed.

(** C9: with the analyzer disabled, [parse_content] returns the fallback
    result; it has the six required keys, and its sentiment is one of
    "positive", "neutral" and "negative". *)
Theorem disabled_parser_result_is_complete (p : DeepSeekParser)
    (content url title : string) :
  enabled p = false →
  let r := parse_content p content url title in
  r = _fallback_parse content url title ∧
  Forall (λ k, is_Some (r !! k)) required_keys ∧
  ∃ s, r !! "sentiment" = Some (VStr s) ∧ s ∈ sentiments.
Proof.
  intros Hoff. unfold DeepSeek.parse_content. rewrite Hoff. simpl.
  split; [done|]. split; [apply fallback_keys|].
  exists (sentiment_of content).
  split; [apply fallback_sentiment|apply sentiment_of_enumerated].
Qed.

End Library.

(** The parser made without any API key, on a text with one positive word. *)
Lemma disabled_parser_result_is_complete_witness :
  let r := parse_content (λ _, ["Rocq"]) (λ s, [s]) "2026-01-01T00:00:00"
             no_key "Rocq is great" "http://a" "A" in
  r = DeepSeek._fallback_parse (λ _, ["Rocq"]) (λ s, [s]) "2026-01-01T00:00:00"
        "Rocq is great" "http://a" "A" ∧
  Forall (λ k, is_Some (r !! k)) required_keys ∧
  ∃ s, r !! "sentiment" = Some (VStr s) ∧ s ∈ sentiments.
Proof.
  apply (disabled_parser_result_is_complete
           (λ _, ["Rocq"]) (λ s, [s]) "2026-01-01T00:00:00" no_key).
  reflexivity.
Defined.

Example fallback_sentiment_positive :
  DeepSeek._fallback_parse (λ _, ["Rocq"]) (λ s, [s]) "2026-01-01T00:00:00"
    "Rocq is great" "http://a" "A" !! "sentiment" = Some (VStr "positive").
Proof. reflexivity. Qed.

End DeepSeekFacts.

(** ** The item pipelines *)

Module PipelinesFacts.

Import Pipelines.

(** *** Keyword matching *)

Section Format.

Variable str_of : pyval → string.

Local Abbreviation format := (format str_of).
Local Abbreviation text_to_search := (text_to_search str_of).
Local Abbreviation matched_keywords := (matched_keywords str_of).
Local Abbreviation keyword_process_item := (keyword_process_item str_of).

Lemma matched_keywords_spec (p : KeywordMatchingPipeline) (item : Item) (k : string) :
  k ∈ matched_keywords p item ↔
  k ∈ keywords p ∧ PyStr.contains (text_to_search item) k = true.
Proof.
  unfold Pipelines.matched_keywords. rewrite list_elem_of_filter. tauto.
Qed.

Lemma keyword_process_item_nonempty (p : KeywordMatchingPipeline) (item : Item)
    (spider : Spider) :
  keywords p ≠ [] →
  keyword_process_item p item spider =
    if flag (filter_by_keywords spider) then
      match matched_keywords p item with
      | [] =>
          match item !! "url" with
          | Some u => DropItem ("No matching keywords found in " +:+ format u)
          | None => Exception
          end
      | _ => Forward (<["matched_keywords" := Py.strs (matched_keywords p item)]> item)
      end
    else Forward (<["matched_keywords" := Py.strs (matched_keywords p item)]> item).
Proof.
  intros Hne. unfold Pipelines.keyword_process_item.
  destruct (keywords p) eqn:Hk; [done|].
  by rewrite lookup_insert_ne.
Qed.

(** C6, amended: the stage writes to [matched_keywords] exactly those
    configured keywords that occur as substrings in the lower-cased
    [title + " " + content], so they are a sub-list of the configured ones.
    With a non-empty keyword list and an item that has a [url], it drops the
    item, with the message "No matching keywords found in <url>", if and only
    if the spider's [filter_by_keywords] flag is on and no keyword matched,
    and forwards it with [matched_keywords] set otherwise.  With an empty
    keyword list it forwards the item as it is, whatever the flag.  With
    keywords ["python", "rust"], the item titled "Python Guide" with content
    "intro to python basics" gets [matched_keywords = ["python"]]. *)
Theorem keyword_matching_spec (p : KeywordMatchingPipeline) (item : Item)
    (spider : Spider) :
  let matched := matched_keywords p item in
  let out := keyword_process_item p item spider in
  let strict := flag (filter_by_keywords spider) in
  (∀ k, k ∈ matched ↔
        k ∈ keywords p ∧ PyStr.contains (text_to_search item) k = true) ∧
  matched ⊆ keywords p ∧
  (keywords p = [] → out = Forward item) ∧
  (keywords p ≠ [] → ∀ u, item !! "url" = Some u →
     (out = DropItem ("No matching keywords found in " +:+ format u)
        ↔ strict = true ∧ matched = []) ∧
     (out = Forward (<["matched_keywords" := Py.strs matched]> item)
        ↔ ¬ (strict = true ∧ matched = []))) ∧
  keyword_process_item (new_keyword_matching (Some ["python"; "rust"])) guide spider
    = Forward (<["matched_keywords" := Py.strs ["python"]]> guide).
Proof.
  simpl. split; [apply matched_keywords_spec|]. split; [|split; [|split]].
  - intros k Hk. by apply matched_keywords_spec in Hk as [Hk _].
  - intros Hk. unfold Pipelines.keyword_process_item. by rewrite Hk.
  - intros Hne u Hu. rewrite keyword_process_item_nonempty by done. rewrite Hu.
    destruct (flag (filter_by_keywords spider));
      destruct (Pipelines.matched_keywords str_of p item) eqn:Hm;
      (split; split; intros H);
      try done; try (by destruct H); by intros [? ?].
  - rewrite keyword_process_item_nonempty by done.
    by destruct (flag (filter_by_keywords spider)).
Qed.

End Format.

Lemma keyword_matching_spec_witness :
  let p := new_keyword_matching (Some ["Rust"]) in
  keyword_process_item (λ _, "") p guide strict_spider
    = DropItem ("No matching keywords found in " +:+ "http://a")
  ↔ flag (filter_by_keywords strict_spider) = true ∧
    matched_keywords (λ _, "") p guide = [].
Proof.
  refine (proj1 (proj1 (proj2 (proj2 (proj2
    (keyword_matching_spec (λ _, "") (new_keyword_matching (Some ["Rust"]))
       guide strict_spider)))) _ (VStr "http://a") _)).
  - discriminate.
  - reflexivity.
Defined.

(** C6, as stated, fails: with the strict filter on and nothing matched, an
    empty keyword list lets the item through, unchanged; and where the stage
    does drop, the reason is not ["no-keyword-match"]. *)
Lemma strict_filter_without_keywords :
  keyword_process_item (λ _, "") (new_keyword_matching None) guide strict_spider
    = Forward guide ∧
  matched_keywords (λ _, "") (new_keyword_matching None) guide = [] ∧
  keyword_process_item (λ _, "") (new_keyword_matching (Some ["Rust"])) guide
    strict_spider
    = DropItem "No matching keywords found in http://a".
Proof. by vm_compute. Qed.

(** Keywords are compared in lower case, whatever case they were configured
    in. *)
Example keyword_case_is_ignored :
  matched_keywords (λ _, "") (new_keyword_matching (Some ["PYTHON"; "Rust"])) guide
    = ["python"].
Proof. by vm_compute. Qed.

(** *** DeepSeek analysis *)

Section Sets.

Variable set_order : list pyval → list pyval.

Local Abbreviation analysis_process_item := (analysis_process_item set_order).
Local Abbreviation add_ai_keywords := (add_ai_keywords set_order).
Local Abbreviation survivors := (survivors set_order).

Lemma same_crawl_fields_refl (item : Item) : same_crawl_fields item item.
Proof. by intros k _. Qed.

Lemma same_crawl_fields_insert (item item' : Item) (f : string) (v : pyval) :
  f ∈ enrichment_fields → same_crawl_fields item item' →
  same_crawl_fields item (<[f := v]> item').
Proof.
  intros Hf Hs k Hk. rewrite lookup_insert_ne; [by apply Hs|].
  intros ->. by apply Hk.
Qed.

Ltac enrichment_field := unfold enrichment_fields; set_solver.

Lemma set_analysis_same (analysis : gmap string pyval) (item : Item) :
  same_crawl_fields item (set_analysis analysis item).
Proof.
  unfold set_analysis.
  repeat (apply same_crawl_fields_insert; [enrichment_field|]).
  apply same_crawl_fields_refl.
Qed.

Lemma add_ai_keywords_same (a : Analyzer) (content : pyval) (item item' : Item) :
  same_crawl_fields item item' →
  same_crawl_fields item (add_ai_keywords a content item').
Proof.
  intros Hs. unfold Pipelines.add_ai_keywords.
  destruct (extract_keywords_ai a content) as [ai|]; [|done].
  destruct (combine_keywords _ _ _) as [combined|]; [|done].
  repeat (apply same_crawl_fields_insert; [enrichment_field|]). done.
Qed.

(** The stage forwards every item, and touches enrichment fields only. *)
Lemma analysis_forwards (p : DeepSeekAnalysisPipeline) (item : Item)
    (spider : Spider) :
  ∃ item', analysis_process_item p item spider = Forward item' ∧
           same_crawl_fields item item'.
Proof.
  unfold Pipelines.analysis_process_item.
  destruct (enabled p), (parser p) as [a|];
    try (eauto using same_crawl_fields_refl).
  destruct (negb (Py.truthy (Py.get item "content" (VStr ""))));
    [eauto using same_crawl_fields_refl|].
  destruct (parse_content a _ _ _) as [[| | | | |analysis]|];
    try (eauto using same_crawl_fields_refl).
  destruct (flag (use_ai_keywords spider)); eexists; split; try done.
  - apply add_ai_keywords_same, set_analysis_same.
  - apply set_analysis_same.
Qed.

Lemma survivors_length (p : DeepSeekAnalysisPipeline) (spider : Spider)
    (items : list Item) :
  length (survivors p spider items) = length items.
Proof.
  unfold Pipelines.survivors. induction items as [|item items IH]; [done|].
  csimpl. destruct (analysis_forwards p item spider) as (item' & -> & _).
  csimpl. by rewrite IH.
Qed.

(** A stage that is switched off, has no parser, or whose parser raises,
    hands the item on as it came. *)
Lemma analysis_off_or_raising (p : DeepSeekAnalysisPipeline) (item : Item)
    (spider : Spider) :
  enabled p = false ∨ parser p = None ∨
  (∃ a, parser p = Some a ∧ ∀ c u t, parse_content a c u t = Raise) →
  analysis_process_item p item spider = Forward item.
Proof.
  unfold Pipelines.analysis_process_item.
  intros [->|[->|(a & -> & Hr)]]; [done|by destruct (enabled p)|].
  destruct (enabled p); [|done]. rewrite Hr. by destruct (negb _).
Qed.

(** An item leaves the chain with the analysis stage exactly when it leaves
    the chain without it. *)
Lemma chains_agree (str_of : pyval → string) (kp : KeywordMatchingPipeline)
    (p : DeepSeekAnalysisPipeline) (item : Item) (spider : Spider) :
  is_forward (pipeline_with_analysis str_of set_order kp p item spider)
    = is_forward (pipeline_basic str_of kp item spider).
Proof.
  unfold pipeline_with_analysis, pipeline_basic.
  destruct (keyword_process_item str_of kp item spider) as [item'| |]; try done.
  by destruct (analysis_forwards p item' spider) as (item'' & -> & _).
Qed.


End Sets.


Example broken_analyzer_forwards :
  analysis_process_item (λ l, l) broken guide strict_spider = Forward guide.
Proof. reflexivity. Qed.

Example answering_analyzer_enriches :
  ∃ item', analysis_process_item (λ l, l) answering guide strict_spider
             = Forward item' ∧
           item' !! "ai_summary" = Some (VStr "a guide") ∧
           item' !! "ai_sentiment" = Some (VStr "neutral") ∧
           item' !! "title" = Some (VStr "Python Guide").
Proof. eexists. split; [reflexivity|]. by vm_compute. Qed.

End PipelinesFacts.

(** * Further properties of the sources *)

(** ** The frontier: order of hand-out, visit cap *)

Module FrontierMore.

Import Frontier.

(** [n] successive calls of [get_next_url()]: what they return, and the
    frontier after them. *)
Fixpoint next_urls (n : nat) (m : URLManager) : list (option string) * URLManager :=
  match n with
  | O => ([], m)
  | S n' =>
      let '(r, m') := get_next_url m in
      let '(rs, m'') := next_urls n' m' in
      (r :: rs, m'')
  end.

Lemma next_urls_closed_form (n : nat) (m : URLManager) :
  next_urls n m =
    ((Some <$> take n (queue m)) ++ replicate (n - length (queue m)) None,
     {| visited := visited m; queue := drop n (queue m); max := max m |}).
Proof.
  revert m. induction n as [|n IH]; intros m; simpl.
  { by destruct m. }
  unfold get_next_url. destruct (queue m) as [|u q] eqn:Hq.
  - rewrite IH, Hq. simpl. by rewrite take_nil, drop_nil, Nat.sub_0_r.
  - rewrite IH. simpl. done.
Qed.

Lemma fresh_add_urls_queue (max_urls : Z) (urls : list string) :
  queue (add_urls (init max_urls) urls) = take (Z.to_nat max_urls) urls.
Proof.
  rewrite FrontierFacts.add_urls_queue. simpl. unfold room, eligible. simpl.
  rewrite Z.sub_0_r. f_equal.
  induction urls as [|u urls IH]; [done|].
  rewrite filter_cons_True by set_solver. by rewrite IH.
Qed.

(** X1: The frontier is first-in first-out: successive [get_next_url()] calls
    return the queued URLs in queue order and then [None] for ever; on a fresh
    frontier the queue is the offered list, cut at the capacity. *)
Theorem urls_come_out_in_order (n : nat) (m : URLManager) :
  fst (next_urls n m) =
    (Some <$> take n (queue m)) ++ replicate (n - length (queue m)) None ∧
  queue (snd (next_urls n m)) = drop n (queue m) ∧
  ∀ (max_urls : Z) (urls : list string),
    fst (next_urls (length urls + n) (add_urls (init max_urls) urls)) =
      (Some <$> take (Z.to_nat max_urls) urls) ++
      replicate (length urls + n - length (take (Z.to_nat max_urls) urls)) None.
Proof.
  rewrite next_urls_closed_form. simpl. split; [done|]. split; [done|].
  intros max_urls urls. rewrite next_urls_closed_form. simpl.
  rewrite fresh_add_urls_queue. f_equal. f_equal.
  apply take_ge. rewrite length_take. lia.
Qed.

Example three_urls_then_none :
  fst (next_urls 4 (add_urls (init 200) ["a"; "b"; "c"]))
    = [Some "a"; Some "b"; Some "c"; None].
Proof. by vm_compute. Qed.

Lemma step_visited_mono (m : URLManager) (o : op) (u : string) :
  u ∈ visited m → u ∈ visited (step m o).
Proof. intros Hu. by destruct (FrontierFacts.step_keeps_visited_out m o u Hu). Qed.

Lemma run_visited_mono (ops : list op) (m : URLManager) (u : string) :
  u ∈ visited m → u ∈ visited (run m ops).
Proof.
  unfold run. revert m. induction ops as [|o ops IH]; intros m Hu; simpl; [done|].
  by apply IH, step_visited_mono.
Qed.

(** X2: Once marked, a URL is refused by [should_visit] for good, whatever
    operations follow; marking is idempotent; a URL that [should_visit]
    accepts can be marked without the visited set outgrowing [max]; and once
    the visited set holds [max] URLs, [should_visit] refuses every URL. *)
Theorem marked_url_is_refused (m : URLManager) (u : string) :
  (∀ ops : list op, should_visit (run (mark_visited m u) ops) u = false) ∧
  mark_visited (mark_visited m u) u = mark_visited m u ∧
  (should_visit m u = true →
   size (visited (mark_visited m u)) = S (size (visited m)) ∧
   Z.of_nat (size (visited (mark_visited m u))) ≤ max m) ∧
  (max m ≤ Z.of_nat (size (visited m)) → ∀ v : string, should_visit m v = false).
Proof.
  split; [|split; [|split]].
  - intros ops. unfold should_visit.
    rewrite bool_decide_eq_false_2; [done|].
    intros Hn. apply Hn. apply run_visited_mono. simpl.
    by apply elem_of_union_l, elem_of_singleton.
  - unfold mark_visited. simpl. f_equal.
    rewrite (assoc_L (∪)). by rewrite union_idemp_L.
  - unfold should_visit. intros H. apply andb_true_iff in H as [Hv Hlt].
    apply bool_decide_eq_true in Hv. apply Z.ltb_lt in Hlt. simpl.
    rewrite size_union by set_solver. rewrite size_singleton. split; lia.
  - intros Hfull v. unfold should_visit.
    apply Z.ltb_ge in Hfull. rewrite Hfull. apply andb_false_r.
Qed.

Lemma marked_url_is_refused_witness :
  size (visited (mark_visited (init 5) "http://a")) = S (size (visited (init 5))) ∧
  Z.of_nat (size (visited (mark_visited (init 5) "http://a"))) ≤ max (init 5).
Proof.
  apply (proj1 (proj2 (proj2 (marked_url_is_refused (init 5) "http://a")))).
  reflexivity.
Defined.

End FrontierMore.

(** ** The crawl: where it stops, what it returns *)

Module DeepScrapeMore.

Import Frontier DeepScrape.

(** Whether a call returned. *)
Definition succeeded {A : Type} (r : result A) : bool :=
  match r with Ok _ => true | Raise => false end.

Lemma truthy_nonempty (s : string) : PyStr.truthy s = true ↔ s ≠ "".
Proof. destruct s; simpl; split; intros; congruence. Qed.

Lemma until_falsy_all (q : list string) :
  Forall (λ u, u ≠ "") q → until_falsy q = q ∧ after_falsy q = [].
Proof.
  induction 1 as [|u q Hu _ [IH1 IH2]]; [done|]. simpl.
  apply truthy_nonempty in Hu. rewrite Hu. by rewrite IH1, IH2.
Qed.

Lemma until_falsy_split (q1 q2 : list string) :
  Forall (λ u, u ≠ "") q1 →
  until_falsy (q1 ++ "" :: q2) = q1 ∧ after_falsy (q1 ++ "" :: q2) = q2.
Proof.
  induction 1 as [|u q Hu _ [IH1 IH2]]; [done|]. simpl.
  apply truthy_nonempty in Hu. rewrite Hu. by rewrite IH1, IH2.
Qed.

Lemma until_falsy_length (q : list string) :
  (length (until_falsy q) ≤ length q)%nat.
Proof.
  induction q as [|u q IH]; simpl; [done|].
  destruct (PyStr.truthy u); simpl; lia.
Qed.

Lemma until_falsy_truthy (q : list string) :
  Forall (λ u, PyStr.truthy u = true ∧ u ∈ q) (until_falsy q).
Proof.
  induction q as [|u q IH]; simpl; [constructor|].
  destruct (PyStr.truthy u) eqn:Hu; [|constructor].
  constructor; [split; [done|set_solver]|].
  eapply Forall_impl; [exact IH|]. simpl. intros v [? ?]. split; [done|set_solver].
Qed.

Section Crawl.

Variable TAG_RE_sub : string → string.
Variable http_get : string → result Page.
Variable Row : Type.
Variable to_dict : CrawlItem → Row.

Local Abbreviation start_crawl := (start_crawl TAG_RE_sub http_get Row to_dict).
Local Abbreviation process_items := (process_items TAG_RE_sub Row to_dict).
Local Abbreviation rows_of := (rows_of TAG_RE_sub http_get Row to_dict).
Local Abbreviation crawled_rows := (crawled_rows TAG_RE_sub http_get Row to_dict).
Local Abbreviation process_item := (process_item TAG_RE_sub).
Local Abbreviation cleaned := (cleaned TAG_RE_sub).


(** A sequence of [start_crawl] calls on one manager. *)
Definition crawls (cm : CrawlerManager Row)
    (requests : list (list string * option (list string) * option (list string)))
    : CrawlerManager Row :=
  foldl (λ cm '(urls, kws, fields), fst (start_crawl cm urls kws fields)) cm requests.

(** X4: Each call of [start_crawl] adds one spider and none is ever removed, so
    [get_crawl_status()] counts the crawls started so far, finished or not. *)
Theorem status_counts_crawls_started (cm : CrawlerManager Row)
    (requests : list (list string * option (list string) * option (list string))) :
  get_crawl_status Row (crawls cm requests)
    = (get_crawl_status Row cm + length requests)%nat ∧
  get_crawl_status Row (snd (stop_crawling Row (crawls cm requests)))
    = get_crawl_status Row (crawls cm requests).
Proof.
  split; [|done]. unfold crawls. revert cm.
  induction requests as [|[[urls kws] fields] requests IH]; intros cm; simpl.
  { unfold get_crawl_status. lia. }
  rewrite IH. rewrite DeepScrapeFacts.start_crawl_closed_form.
  unfold get_crawl_status. simpl. rewrite length_app. simpl. lia.
Qed.

Lemma process_items_length (dp : DataProcessor) (fields : option (list string))
    (items : list CrawlItem) (rows : list Row) :
  (length (process_items dp items fields rows) ≤ length rows + length items)%nat.
Proof.
  revert rows. induction items as [|item items IH]; intros rows; simpl; [lia|].
  destruct (fst _).
  - etrans; [apply IH|]. rewrite length_app. simpl. lia.
  - etrans; [apply IH|]. lia.
Qed.

Lemma rows_of_length (dp : DataProcessor) (fields : option (list string))
    (u : string) :
  (length (rows_of dp fields u) ≤ 1)%nat.
Proof.
  unfold DeepScrape.rows_of. etrans; [apply process_items_length|].
  unfold parse. destruct (http_get u); simpl; lia.
Qed.

Lemma flat_map_rows_length (dp : DataProcessor) (fields : option (list string))
    (q : list string) :
  (length (flat_map (rows_of dp fields) q) ≤ length q)%nat.
Proof.
  induction q as [|u q IH]; simpl; [done|].
  rewrite length_app. pose proof (rows_of_length dp fields u). lia.
Qed.

(** X5: A crawl returns at most one row per queued URL, so on a frontier that
    respects its capacity never more rows than the capacity. *)
Theorem rows_bounded_by_capacity (cm : CrawlerManager Row) (urls : list string)
    (kws fields : option (list string)) :
  within_capacity (url_manager Row cm) →
  let r := start_crawl cm urls kws fields in
  (snd r ≤ length (queue (url_manager Row cm)) + length urls)%nat ∧
  Z.of_nat (snd r) ≤ Z.max 0 (max (url_manager Row cm)).
Proof.
  intros Hcap. simpl. rewrite DeepScrapeFacts.start_crawl_closed_form. simpl.
  unfold DeepScrape.crawled_rows.
  pose proof (flat_map_rows_length (data_processor Row cm) fields
    (until_falsy (queue (add_urls (url_manager Row cm) urls)))) as Hrows.
  pose proof (until_falsy_length (queue (add_urls (url_manager Row cm) urls))) as Hq.
  pose proof (FrontierFacts.step_bound _ (AddUrls urls) Hcap) as Hb.
  unfold within_capacity in Hb. simpl in Hb.
  rewrite FrontierFacts.add_urls_max in Hb.
  split; [|lia].
  assert (length (queue (add_urls (url_manager Row cm) urls))
          ≤ length (queue (url_manager Row cm)) + length urls)%nat.
  { rewrite FrontierFacts.add_urls_queue, length_app, length_take.
    assert (length (eligible (url_manager Row cm) urls) ≤ length urls)%nat.
    { unfold eligible. apply length_filter. }
    lia. }
  lia.
Qed.

End Crawl.

Lemma rows_bounded_by_capacity_witness :
  let r := DeepScrape.start_crawl no_tags page_ok CrawlItem id fresh
             ["https://a"; "https://b"] None (Some ["title"]) in
  (snd r ≤ length (queue (url_manager CrawlItem fresh)) + 2)%nat ∧
  Z.of_nat (snd r) ≤ Z.max 0 (max (url_manager CrawlItem fresh)).
Proof.
  apply (rows_bounded_by_capacity no_tags page_ok CrawlItem id fresh
           ["https://a"; "https://b"] None (Some ["title"])).
  unfold within_capacity. simpl. lia.
Defined.


End DeepScrapeMore.

(** ** The data processor, the validator and the adapter of the sources *)

Module ProcessorMore.

Import Frontier DeepScrape DeepScrapeMore.

Lemma lower_ascii_idem (c : ascii) :
  PyStr.lower_ascii (PyStr.lower_ascii c) = PyStr.lower_ascii c.
Proof. destruct c as [[] [] [] [] [] [] [] []]; reflexivity. Qed.

Lemma lower_idem (s : string) : PyStr.lower (PyStr.lower s) = PyStr.lower s.
Proof.
  induction s as [|c s IH]; simpl; [done|]. by rewrite lower_ascii_idem, IH.
Qed.

(** X6: [filter_by_keywords] ignores case on both sides; it accepts every text
    when there is no keyword, and with keywords exactly the texts in which one
    of them occurs. *)
Theorem filter_by_keywords_ignores_case (content : string) (kws : list string) :
  filter_by_keywords content [] = true ∧
  filter_by_keywords (PyStr.lower content) (PyStr.lower <$> kws)
    = filter_by_keywords content kws ∧
  (kws ≠ [] →
   (filter_by_keywords content kws = true ↔
    ∃ k, k ∈ kws ∧ PyStr.contains (PyStr.lower content) (PyStr.lower k) = true)).
Proof.
  split; [done|]. split.
  - destruct kws as [|k kws]; [done|].
    unfold filter_by_keywords. rewrite fmap_cons, lower_idem.
    change (PyStr.lower k :: (PyStr.lower <$> kws)) with (PyStr.lower <$> (k :: kws)).
    generalize (k :: kws). intros l.
    induction l as [|x l IH]; simpl; [done|].
    rewrite lower_idem. f_equal. exact IH.
  - intros Hne. destruct kws as [|k kws]; [done|].
    unfold filter_by_keywords. rewrite existsb_exists. split.
    + intros (x & Hx & Hc). exists x. by rewrite list_elem_of_In.
    + intros (x & Hx & Hc). exists x. by rewrite <- list_elem_of_In.
Qed.

Lemma filter_by_keywords_ignores_case_witness :
  filter_by_keywords "Learn PYTHON today" ["Rust"; "python"] = true ↔
  ∃ k, k ∈ ["Rust"; "python"] ∧
       PyStr.contains (PyStr.lower "Learn PYTHON today") (PyStr.lower k) = true.
Proof.
  apply (proj2 (proj2 (filter_by_keywords_ignores_case "Learn PYTHON today"
                         ["Rust"; "python"]))).
  discriminate.
Defined.

(** X7: [validate] accepts exactly the dictionaries that have every required
    key; it does not look at the values, accepts every dictionary when nothing
    is required ([None] or the empty list), keeps accepting when keys are
    added, and rejects whatever is no dictionary. *)
Theorem validate_checks_keys_only (data : pyval) (required : option (list string)) :
  (validate data required = true ↔
   ∃ d, data = VDict d ∧ ∀ k, k ∈ default [] required → is_Some (d !! k)) ∧
  (∀ d, validate (VDict d) None = true ∧ validate (VDict d) (Some []) = true) ∧
  (∀ d d' : gmap string pyval,
     d ⊆ d' → validate (VDict d) required = true →
     validate (VDict d') required = true) ∧
  (∀ (d : gmap string pyval) (k : string) (v : pyval),
     validate (VDict (<[k := v]> d)) (Some [k]) = true).
Proof.
  assert (Hdict : ∀ d r, validate (VDict d) r = true ↔
                         ∀ k, k ∈ default [] r → is_Some (d !! k)).
  { intros d r. unfold validate. rewrite forallb_forall. split.
    - intros H k Hk. apply list_elem_of_In in Hk.
      specialize (H k Hk). by apply bool_decide_eq_true in H.
    - intros H k Hk. apply bool_decide_eq_true. apply H. by apply list_elem_of_In. }
  split; [|split; [|split]].
  - destruct data as [| | | | |d]; try (split; [done|by intros (d & ? & _)]).
    rewrite Hdict. split; [eauto|]. by intros (d' & [= <-] & H).
  - done.
  - intros d d' Hsub. rewrite !Hdict. intros H k Hk.
    destruct (H k Hk) as [v Hv]. exists v. by eapply lookup_weaken.
  - intros d k v. apply Hdict. simpl. intros k' Hk'.
    apply list_elem_of_singleton in Hk' as ->. rewrite lookup_insert_eq. eauto.
Qed.

Lemma validate_checks_keys_only_witness :
  validate (VDict (<["url" := VStr "u"]> {[ "title" := VNone ]})) (Some ["title"])
    = true.
Proof.
  apply (proj1 (proj2 (proj2 (validate_checks_keys_only
           (VDict {[ "title" := VNone ]}) (Some ["title"])))) {[ "title" := VNone ]}).
  - apply insert_subseteq. reflexivity.
  - reflexivity.
Defined.

(** X8: The adapter of the sources answers with exactly the requested fields,
    each holding the empty string, whatever the text; it raises when [fields]
    is [None]; and its answer passes [validate] for the same fields. *)
Theorem stub_answer_is_empty (text : string) (fs : list string) :
  (∃ d, parse_data (deepseek new_processor) text (Some fs) = Ok (VDict d) ∧
        dom d = list_to_set fs ∧
        (∀ k v, d !! k = Some v → v = VStr "") ∧
        validate (VDict d) (Some fs) = true) ∧
  parse_data (deepseek new_processor) text None = Raise.
Proof.
  split; [|done]. eexists. split; [reflexivity|]. split; [|split].
  - rewrite dom_list_to_map_L, <- list_fmap_compose. simpl.
    by rewrite list_fmap_id.
  - intros k v Hk. apply elem_of_list_to_map_2 in Hk.
    apply list_elem_of_fmap in Hk as (x & [= _ ->] & _). done.
  - destruct (DeepScrapeFacts.stub_adapter_validates text fs) as (data & Hd & Hv).
    simpl in Hd. by simplify_eq.
Qed.

Section Crawl.

Variable TAG_RE_sub : string → string.
Variable http_get : string → result Page.
Variable Row : Type.
Variable to_dict : CrawlItem → Row.

Local Abbreviation start_crawl := (start_crawl TAG_RE_sub http_get Row to_dict).
Local Abbreviation rows_of := (rows_of TAG_RE_sub http_get Row to_dict).
Local Abbreviation process_item := (process_item TAG_RE_sub).
Local Abbreviation clean_text := (clean_text TAG_RE_sub).

(** The item [parse] yields for a page. *)
Definition page_item (u : string) (pg : Page) : CrawlItem :=
  {| url := u;
     title := if PyStr.truthy (title_string pg) then title_string pg else u;
     content := text pg |}.

Lemma rows_of_stub (fields : option (list string)) (u : string) :
  rows_of new_processor fields u =
    match fields, http_get u with
    | Some _, Ok pg => [to_dict (set_content (page_item u pg) (clean_text (text pg)))]
    | _, _ => []
    end.
Proof.
  unfold DeepScrape.rows_of, parse.
  destruct (http_get u) as [pg|]; [|by destruct fields].
  simpl. rewrite DeepScrapeFacts.process_item_cases.
  by destruct fields as [fs|].
Qed.

Lemma flat_map_rows_stub_none (q : list string) :
  flat_map (rows_of new_processor None) q = [].
Proof.
  induction q as [|u q IH]; simpl; [done|].
  rewrite IH, rows_of_stub. by destruct (http_get u).
Qed.

Lemma flat_map_rows_stub_some (fs : list string) (q : list string) :
  length (flat_map (rows_of new_processor (Some fs)) q)
    = length (filter (λ u, succeeded (http_get u) = true) q).
Proof.
  induction q as [|u q IH]; simpl; [done|].
  rewrite length_app, IH, rows_of_stub.
  destruct (http_get u) eqn:Hu; simpl.
  - rewrite filter_cons_True by (by rewrite Hu). done.
  - rewrite filter_cons_False by (by rewrite Hu). done.
Qed.



End Crawl.



End ProcessorMore.

(** ** The content parser: every path, and the text fallback *)

Module DeepSeekText.

(** [s.split(sep)] for a one-character separator: never empty. *)
Fixpoint split_on (sep : ascii) (s : string) : list string :=
  match s with
  | EmptyString => [EmptyString]
  | String c s' =>
      if Ascii.eqb c sep then EmptyString :: split_on sep s'
      else match split_on sep s' with
           | h :: t => String c h :: t
           | [] => [String c EmptyString]
           end
  end.

(** The text before and after the first [sep], if there is one. *)
Fixpoint cut (sep : ascii) (s : string) : option (string * string) :=
  match s with
  | EmptyString => None
  | String c s' =>
      if Ascii.eqb c sep then Some (EmptyString, s')
      else match cut sep s' with
           | Some (a, b) => Some (String c a, b)
           | None => None
           end
  end.

(** [s.split(sep, 1)]. *)
Definition split_once (sep : ascii) (s : string) : list string :=
  match cut sep s with
  | Some (a, b) => [a; b]
  | None => [s]
  end.

(** [l[1]]: raises [IndexError] when the list is too short. *)
Definition second (l : list string) : result string :=
  match l !! 1%nat with Some x => Ok x | None => Raise end.

Definition newline : ascii := "010"%char.
Definition colon : ascii := ":"%char.

(** The [result] dictionary [_parse_structured_text] starts from. *)
Definition structured_defaults : gmap string pyval :=
  list_to_map
    [ ("summary", VStr ""); ("entities", VList []); ("topics", VList []);
      ("sentiment", VStr "neutral"); ("key_points", VList []);
      ("structured_data", VDict ∅) ].

(** The body of [for line in lines]. *)
Definition structured_line (res : gmap string pyval) (line : string)
    : result (gmap string pyval) :=
  let line := PyStr.strip line in
  if PyStr.contains (PyStr.lower line) "summary:" then
    match second (split_once colon line) with
    | Ok x => Ok (<["summary" := VStr (PyStr.strip x)]> res)
    | Raise => Raise
    end
  else if PyStr.contains (PyStr.lower line) "sentiment:" then
    match second (split_once colon line) with
    | Ok x => Ok (<["sentiment" := VStr (PyStr.lower (PyStr.strip x))]> res)
    | Raise => Raise
    end
  else Ok res.

Fixpoint structured_lines (res : gmap string pyval) (lines : list string)
    : result (gmap string pyval) :=
  match lines with
  | [] => Ok res
  | line :: lines' =>
      match structured_line res line with
      | Ok res' => structured_lines res' lines'
      | Raise => Raise
      end
  end.

(** [_parse_structured_text(text)]. *)
Definition _parse_structured_text (text : string) : result (gmap string pyval) :=
  structured_lines structured_defaults (split_on newline text).

(** Whether a character occurs in a string. *)
Fixpoint has_char (c : ascii) (s : string) : bool :=
  match s with
  | EmptyString => false
  | String x s' => Ascii.eqb x c || has_char c s'
  end.

(** The well-formed intermediate results: the six keys, with strings under
    [summary] and [sentiment], the latter in lower case. *)
Definition structured_ok (res : gmap string pyval) : Prop :=
  Forall (λ k, is_Some (res !! k)) DeepSeek.required_keys ∧
  (∃ s, res !! "summary" = Some (VStr s)) ∧
  (∃ s, res !! "sentiment" = Some (VStr s) ∧ PyStr.lower s = s) ∧
  res !! "entities" = Some (VList []) ∧ res !! "topics" = Some (VList []) ∧
  res !! "key_points" = Some (VList []).

Example structured_text_example :
  ∃ r, _parse_structured_text
         ("Summary: A guide " +:+ String newline "Sentiment:  POSITIVE") = Ok r ∧
       r !! "summary" = Some (VStr "A guide") ∧
       r !! "sentiment" = Some (VStr "positive").
Proof. eexists. split; [reflexivity|]. by vm_compute. Qed.

Lemma prefix_has_char (c : ascii) (k s : string) :
  String.prefix k s = true → has_char c k = true → has_char c s = true.
Proof.
  revert s. induction k as [|x k IH]; intros s Hp Hc; [done|].
  destruct s as [|y s]; [done|]. simpl in *.
  destruct (ascii_dec x y) as [->|Hne]; [|done].
  destruct (Ascii.eqb y c); [done|]. simpl in *. by apply IH.
Qed.

Lemma contains_has_char (c : ascii) (k s : string) :
  PyStr.contains s k = true → has_char c k = true → has_char c s = true.
Proof.
  intros Hs Hc. induction s as [|y s IH].
  - change (String.prefix k "" || false = true) in Hs.
    rewrite orb_false_r in Hs. by eapply prefix_has_char.
  - change (String.prefix k (String y s) || PyStr.contains s k = true) in Hs.
    apply orb_true_iff in Hs as [Hp|Hs].
    + by eapply prefix_has_char.
    + simpl. rewrite (IH Hs). apply orb_true_r.
Qed.

Lemma lower_ascii_colon (x : ascii) :
  Ascii.eqb (PyStr.lower_ascii x) colon = Ascii.eqb x colon.
Proof. destruct x as [[] [] [] [] [] [] [] []]; reflexivity. Qed.

Lemma lower_has_colon (s : string) :
  has_char colon (PyStr.lower s) = has_char colon s.
Proof.
  induction s as [|x s IH]; simpl; [done|]. by rewrite lower_ascii_colon, IH.
Qed.

Lemma has_colon_second (s : string) :
  has_char colon s = true → ∃ x, second (split_once colon s) = Ok x.
Proof.
  intros Hc. unfold split_once.
  assert (Hcut : ∃ a b, cut colon s = Some (a, b)).
  { induction s as [|y s IH]; [done|]. simpl in *.
    destruct (Ascii.eqb y colon); [eauto|].
    destruct (IH Hc) as (a & b & ->). eauto. }
  destruct Hcut as (a & b & ->). by exists b.
Qed.

Lemma marker_second (marker line : string) :
  has_char colon marker = true →
  PyStr.contains (PyStr.lower line) marker = true →
  ∃ x, second (split_once colon line) = Ok x.
Proof.
  intros Hm Hc. apply has_colon_second. rewrite <- lower_has_colon.
  by eapply contains_has_char.
Qed.

Lemma structured_line_ok (res : gmap string pyval) (line : string) :
  structured_ok res → ∃ res', structured_line res line = Ok res' ∧ structured_ok res'.
Proof.
  intros (Hkeys & Hsum & Hsent & He & Ht & Hk). unfold structured_line.
  destruct (PyStr.contains _ "summary:") eqn:H1.
  - destruct (marker_second "summary:" _ eq_refl H1) as (x & ->).
    eexists. split; [done|]. unfold structured_ok.
    rewrite !Forall_forall in *. split; [|split; [|split]].
    + intros k Hk'. rewrite lookup_insert. case_decide; [eauto|by apply Hkeys].
    + rewrite lookup_insert_eq. eauto.
    + by rewrite lookup_insert_ne.
    + by rewrite !lookup_insert_ne.
  - destruct (PyStr.contains _ "sentiment:") eqn:H2; [|by eexists].
    destruct (marker_second "sentiment:" _ eq_refl H2) as (x & ->).
    eexists. split; [done|]. unfold structured_ok.
    rewrite !Forall_forall in *. split; [|split; [|split]].
    + intros k Hk'. rewrite lookup_insert. case_decide; [eauto|by apply Hkeys].
    + by rewrite lookup_insert_ne.
    + rewrite lookup_insert_eq. eexists. split; [done|].
      apply ProcessorMore.lower_idem.
    + by rewrite !lookup_insert_ne.
Qed.

Lemma structured_lines_ok (lines : list string) (res : gmap string pyval) :
  structured_ok res → ∃ res', structured_lines res lines = Ok res' ∧ structured_ok res'.
Proof.
  revert res. induction lines as [|line lines IH]; intros res Hres; simpl; [eauto|].
  destruct (structured_line_ok res line Hres) as (res' & -> & Hres'). by apply IH.
Qed.

Lemma structured_lines_unmarked (lines : list string) (res : gmap string pyval) :
  Forall (λ line,
    PyStr.contains (PyStr.lower (PyStr.strip line)) "summary:" = false ∧
    PyStr.contains (PyStr.lower (PyStr.strip line)) "sentiment:" = false) lines →
  structured_lines res lines = Ok res.
Proof.
  induction 1 as [|line lines [H1 H2] _ IH]; simpl; [done|].
  unfold structured_line. by rewrite H1, H2.
Qed.

(** X11: [_parse_structured_text] never raises: a line that holds one of the
    markers holds a colon, so [line.split(':', 1)[1]] exists.  Its result has
    the six keys, strings under [summary] and [sentiment] (the latter in lower
    case, but not confined to the three labels), and empty lists elsewhere;
    a text without a marker line gives the defaults. *)
Theorem structured_text_never_raises (text : string) :
  (∃ r, _parse_structured_text text = Ok r ∧ structured_ok r) ∧
  (Forall (λ line,
     PyStr.contains (PyStr.lower (PyStr.strip line)) "summary:" = false ∧
     PyStr.contains (PyStr.lower (PyStr.strip line)) "sentiment:" = false)
     (split_on newline text) →
   _parse_structured_text text = Ok structured_defaults).
Proof.
  split.
  - apply structured_lines_ok. unfold structured_ok, DeepSeek.required_keys.
    split; [repeat constructor; by eexists|].
    split; [by eexists|]. split; [by eexists|]. done.
  - apply structured_lines_unmarked.
Qed.

Lemma structured_text_never_raises_witness :
  _parse_structured_text "no markers here" = Ok structured_defaults.
Proof.
  apply (proj2 (structured_text_never_raises "no markers here")).
  repeat constructor.
Defined.

Example sentiment_is_not_confined :
  ∃ r, _parse_structured_text "Sentiment: Mixed" = Ok r ∧
       r !! "sentiment" = Some (VStr "mixed").
Proof. eexists. split; [reflexivity|]. by vm_compute. Qed.

End DeepSeekText.

(** ** The content parser: the analysis on every path *)

Module DeepSeekMore.

Import DeepSeek.

Section Library.

Variable entity_set : string → list string.
Variable re_split_sentences : string → list string.
Variable now_isoformat : string.

Local Abbreviation _fallback_parse :=
  (_fallback_parse entity_set re_split_sentences now_isoformat).
Local Abbreviation parse_content :=
  (parse_content entity_set re_split_sentences now_isoformat).
Local Abbreviation analysis_of := (analysis_of now_isoformat).

Lemma analysis_of_keys (parsed : gmap string pyval) :
  Forall (λ k, is_Some (analysis_of parsed !! k)) required_keys.
Proof. unfold required_keys. repeat constructor; eexists; reflexivity. Qed.

Lemma parse_content_cases (p : DeepSeekParser) (content url title : string) :
  (∃ parsed, enabled p = true ∧ remote p content url title = Ok (VDict parsed) ∧
             parse_content p content url title = analysis_of parsed) ∨
  ((enabled p = false ∨ ∀ parsed, remote p content url title ≠ Ok (VDict parsed)) ∧
   parse_content p content url title = _fallback_parse content url title).
Proof.
  unfold DeepSeek.parse_content. destruct (enabled p); simpl; [|right; auto].
  destruct (remote p content url title) as [[| | | | |parsed]|];
    try (right; split; [right; intros ?; discriminate|done]).
  left. eauto.
Qed.

(** X12: Enabled or not, and whatever the remote analysis does, [parse_content]
    returns a dictionary with the six required keys, the timestamp, and
    [parser_used], which is "deepseek" exactly when the parser is enabled and
    the remote analysis gave a dictionary, and "fallback" otherwise.  On the
    "deepseek" path the sentiment is what the remote analysis said, "neutral"
    when it said nothing: it is not confined to the three labels. *)
Theorem parse_content_is_always_complete (p : DeepSeekParser)
    (content url title : string) :
  let r := parse_content p content url title in
  Forall (λ k, is_Some (r !! k)) required_keys ∧
  r !! "analysis_timestamp" = Some (VStr now_isoformat) ∧
  (r !! "parser_used" = Some (VStr "deepseek") ∨
   r !! "parser_used" = Some (VStr "fallback")) ∧
  (r !! "parser_used" = Some (VStr "deepseek") ↔
   enabled p = true ∧ ∃ parsed, remote p content url title = Ok (VDict parsed)) ∧
  (∀ parsed, enabled p = true → remote p content url title = Ok (VDict parsed) →
     r !! "sentiment" = Some (Py.get parsed "sentiment" (VStr "neutral")) ∧
     r !! "summary" = Some (Py.get parsed "summary" (VStr ""))).
Proof.
  simpl.
  destruct (parse_content_cases p content url title)
    as [(parsed & Hen & Hr & ->)|[Hwhy ->]].
  - split; [apply analysis_of_keys|]. split; [done|]. split; [by left|].
    split; [split; eauto|]. intros parsed' _ Hr'.
    rewrite Hr in Hr'. injection Hr' as <-. split; reflexivity.
  - split; [apply DeepSeekFacts.fallback_keys|]. split; [done|]. split; [by right|].
    split.
    + split; [done|]. intros [Hen (parsed & Hr)].
      destruct Hwhy as [Hoff|Hno]; [congruence|by destruct (Hno parsed)].
    + intros parsed Hen Hr.
      destruct Hwhy as [Hoff|Hno]; [congruence|by destruct (Hno parsed)].
Qed.

End Library.

(** A remote analysis that answers with a sentiment of its own. *)
Definition opinionated : DeepSeekParser :=
  {| enabled := true;
     remote := λ _ _ _, Ok (VDict {[ "sentiment" := VStr "mixed" ]}) |}.

Lemma parse_content_is_always_complete_witness :
  let r := DeepSeek.parse_content (λ _, []) (λ s, [s]) "2026-01-01T00:00:00"
             opinionated "text" "http://a" "A" in
  r !! "sentiment"
    = Some (Py.get {[ "sentiment" := VStr "mixed" ]} "sentiment" (VStr "neutral")) ∧
  r !! "summary"
    = Some (Py.get {[ "sentiment" := VStr "mixed" ]} "summary" (VStr "")).
Proof.
  apply (proj2 (proj2 (proj2 (proj2
    (parse_content_is_always_complete (λ _, []) (λ s, [s]) "2026-01-01T00:00:00"
       opinionated "text" "http://a" "A"))))).
  - reflexivity.
  - reflexivity.
Defined.

End DeepSeekMore.

(** ** Keyword extraction: the frequency fallback *)

Module Keywords.

(** [l[:n]]: a negative [n] counts from the end. *)
Definition slice_to {A : Type} (n : Z) (l : list A) : list A :=
  if 0 <=? n then take (Z.to_nat n) l
  else take (length l - Z.to_nat (- n)) l.

Definition stop_words : list string :=
  ["the"; "a"; "an"; "and"; "or"; "but"; "in"; "on"; "at"; "to"; "for";
   "of"; "with"; "by"; "is"; "are"; "was"; "were"; "be"; "been"; "being";
   "have"; "has"; "had"; "do"; "does"; "did"; "will"; "would"; "could";
   "should"; "may"; "might"; "must"; "shall"; "this"; "that"; "these";
   "those"; "i"; "you"; "he"; "she"; "it"; "we"; "they"; "me"; "him";
   "her"; "us"; "them"].

(** [word_freq[word] = word_freq.get(word, 0) + 1] on a dictionary that keeps
    its keys in the order of their first insertion. *)
Fixpoint bump (word : string) (word_freq : list (string * nat)) : list (string * nat) :=
  match word_freq with
  | [] => [(word, 1%nat)]
  | (w, n) :: rest =>
      if decide (w = word) then (w, S n) :: rest else (w, n) :: bump word rest
  end.

(** The loop [for word in words: if word not in stop_words: ...]. *)
Definition count_all (words : list string) : list (string * nat) :=
  foldl (λ word_freq word,
           if decide (word ∈ stop_words) then word_freq else bump word word_freq)
        [] words.

(** [sorted(items, key=lambda x: x[1], reverse=True)]: a stable sort, entries
    of equal frequency keep their order. *)
Fixpoint insert_desc (x : string * nat) (l : list (string * nat)) : list (string * nat) :=
  match l with
  | [] => [x]
  | y :: l' => if (snd x <? snd y)%nat then y :: insert_desc x l' else x :: y :: l'
  end.

Fixpoint sort_desc (l : list (string * nat)) : list (string * nat) :=
  match l with
  | [] => []
  | x :: l' => insert_desc x (sort_desc l')
  end.

Section Regex.

(** [re.findall(r'\b[a-zA-Z]{3,}\b', ·)]. *)
Variable re_words : string → list string.

(** [_extract_keywords_fallback(content, max_keywords)]. *)
Definition _extract_keywords_fallback (content : string) (max_keywords : Z)
    : list string :=
  let words := re_words (PyStr.lower content) in
  let word_freq := count_all words in
  let sorted_words := sort_desc word_freq in
  fst <$> slice_to max_keywords sorted_words.

(** [extract_keywords_ai(content, max_keywords)].  [remote_keywords] stands
    for the body of the [try] block up to [json.loads]: the parsed JSON list,
    [None] when the answer holds no list, or an exception. *)
Definition extract_keywords_ai (p : DeepSeek.DeepSeekParser)
    (remote_keywords : string → Z → result (option (list pyval)))
    (content : string) (max_keywords : Z) : list pyval :=
  if negb (DeepSeek.enabled p)
  then VStr <$> _extract_keywords_fallback content max_keywords
  else
    match remote_keywords content max_keywords with
    | Ok (Some keywords) => slice_to max_keywords keywords
    | Ok None => VStr <$> _extract_keywords_fallback content max_keywords
    | Raise => VStr <$> _extract_keywords_fallback content max_keywords
    end.

End Regex.

(** The frequency recorded for a word, 0 when it has no entry. *)
Fixpoint freq_of (word : string) (word_freq : list (string * nat)) : nat :=
  match word_freq with
  | [] => 0
  | (w, n) :: rest => if decide (w = word) then n else freq_of word rest
  end.

(** Occurrences of a word in a list of words. *)
Definition occ (word : string) (words : list string) : nat :=
  length (filter (λ w, w = word) words).

Example fallback_example :
  _extract_keywords_fallback
    (λ _, ["the"; "crawler"; "and"; "scrapy"; "the"; "crawler"; "data"; "scrapy"; "crawler"])
    "ignored" 2 = ["crawler"; "scrapy"].
Proof. by vm_compute. Qed.

End Keywords.

Module KeywordsFacts.

Import Keywords.

Lemma slice_to_length {A : Type} (n : Z) (l : list A) :
  0 ≤ n → Z.of_nat (length (slice_to n l)) ≤ n.
Proof.
  intros Hn. unfold slice_to. apply Z.leb_le in Hn as Hb. rewrite Hb.
  rewrite length_take. lia.
Qed.

Lemma slice_to_prefix {A : Type} (n : Z) (l : list A) :
  ∃ k, slice_to n l = take k l.
Proof. unfold slice_to. destruct (0 <=? n); eauto. Qed.

Lemma slice_to_all {A : Type} (n : Z) (l : list A) :
  Z.of_nat (length l) ≤ n → slice_to n l = l.
Proof.
  intros Hn. unfold slice_to.
  assert ((0 <=? n) = true) as -> by (apply Z.leb_le; lia).
  apply take_ge. lia.
Qed.

Lemma freq_of_bump (word w : string) (word_freq : list (string * nat)) :
  freq_of w (bump word word_freq)
    = if decide (word = w) then S (freq_of w word_freq) else freq_of w word_freq.
Proof.
  induction word_freq as [|[v n] rest IH]; simpl.
  - repeat case_decide; congruence.
  - destruct (decide (v = word)) as [->|Hne]; simpl.
    + repeat case_decide; congruence.
    + rewrite IH. repeat case_decide; congruence.
Qed.

Lemma keys_bump (word : string) (word_freq : list (string * nat)) :
  fst <$> bump word word_freq =
    if decide (word ∈ fst <$> word_freq) then fst <$> word_freq
    else (fst <$> word_freq) ++ [word].
Proof.
  induction word_freq as [|[v n] rest IH]; [done|].
  change (bump word ((v, n) :: rest))
    with (if decide (v = word) then (v, S n) :: rest else (v, n) :: bump word rest).
  rewrite fmap_cons. simpl fst.
  destruct (decide (v = word)) as [->|Hne].
  - rewrite decide_True by apply list_elem_of_here. done.
  - rewrite fmap_cons, IH. simpl fst.
    destruct (decide (word ∈ fst <$> rest)) as [Hin|Hnin].
    + rewrite decide_True by (by apply list_elem_of_further). done.
    + rewrite decide_False; [done|].
      intros [?|?]%elem_of_cons; congruence.
Qed.

(** What the counting loop has built after the words [words]. *)
Definition counted (words : list string) (word_freq : list (string * nat)) : Prop :=
  NoDup (fst <$> word_freq) ∧
  (∀ w, w ∈ fst <$> word_freq ↔ w ∈ words ∧ w ∉ stop_words) ∧
  (∀ w, freq_of w word_freq = if decide (w ∈ stop_words) then 0%nat else occ w words).

Lemma occ_snoc (w x : string) (words : list string) :
  occ w (words ++ [x]) = (occ w words + if decide (x = w) then 1 else 0)%nat.
Proof.
  unfold occ. rewrite filter_app, length_app. f_equal.
  case_decide; [by rewrite filter_cons_True|by rewrite filter_cons_False].
Qed.

Lemma count_all_counted (words : list string) : counted words (count_all words).
Proof.
  unfold count_all.
  induction words as [|x words IH] using rev_ind.
  - split; [constructor|]. split.
    + intros w. split; [by intros ?%elem_of_nil|by intros [?%elem_of_nil _]].
    + intros w. by case_decide.
  - rewrite foldl_app. simpl. destruct IH as (Hnd & Hkeys & Hfreq).
    destruct (decide (x ∈ stop_words)) as [Hstop|Hgo].
    + split; [done|]. split.
      * intros w. rewrite Hkeys, elem_of_app, list_elem_of_singleton.
        split; [tauto|]. intros [[?| ->] ?]; tauto.
      * intros w. rewrite Hfreq, occ_snoc.
        repeat case_decide; subst; try done; lia.
    + split; [|split].
      * rewrite keys_bump. case_decide; [done|].
        apply NoDup_app. split; [done|]. split; [|apply NoDup_singleton].
        intros w Hw ->%list_elem_of_singleton. done.
      * intros w. rewrite keys_bump, elem_of_app, list_elem_of_singleton.
        case_decide as Hin.
        -- rewrite Hkeys. split; [tauto|]. intros [[?| ->] ?]; [tauto|].
           by apply Hkeys.
        -- rewrite elem_of_app, list_elem_of_singleton, Hkeys.
           split; [intros [?| ->]; tauto|]. intros [[?| ->] ?]; tauto.
      * intros w. rewrite freq_of_bump, Hfreq, occ_snoc.
        destruct (decide (x = w)) as [->|Hne].
        -- repeat case_decide; try done; lia.
        -- repeat case_decide; try done; lia.
Qed.

Lemma insert_desc_perm (x : string * nat) (l : list (string * nat)) :
  insert_desc x l ≡ₚ x :: l.
Proof.
  induction l as [|y l IH]; simpl; [done|].
  destruct (_ <? _)%nat; [|done]. rewrite IH. apply Permutation_swap.
Qed.

Lemma sort_desc_perm (l : list (string * nat)) : sort_desc l ≡ₚ l.
Proof.
  induction l as [|x l IH]; simpl; [done|]. by rewrite insert_desc_perm, IH.
Qed.

(** Entries in non-increasing order of frequency. *)
Definition descending (l : list (string * nat)) : Prop :=
  StronglySorted (λ a b, (snd b ≤ snd a)%nat) l.

Lemma insert_desc_sorted (x : string * nat) (l : list (string * nat)) :
  descending l → descending (insert_desc x l).
Proof.
  unfold descending. induction 1 as [|y l Hl IH Hy]; simpl.
  { repeat constructor. }
  destruct (Nat.ltb_spec (snd x) (snd y)) as [Hlt|Hge].
  - constructor; [done|].
    rewrite insert_desc_perm. constructor; [lia|done].
  - constructor; [by constructor|].
    constructor; [done|]. eapply Forall_impl; [exact Hy|]. simpl. intros; lia.
Qed.

Lemma sort_desc_sorted (l : list (string * nat)) : descending (sort_desc l).
Proof.
  induction l as [|x l IH]; simpl; [constructor|]. by apply insert_desc_sorted.
Qed.

Lemma descending_lookup (l : list (string * nat)) (i j : nat) (a b : string * nat) :
  descending l → (i < j)%nat → l !! i = Some a → l !! j = Some b →
  (snd b ≤ snd a)%nat.
Proof.
  unfold descending. intros Hl. revert i j.
  induction Hl as [|y l Hl IH Hy]; intros i j Hij Hi Hj; [done|].
  destruct i as [|i], j as [|j]; try lia; simpl in *.
  - simplify_eq. rewrite Forall_forall in Hy. apply Hy.
    by eapply list_elem_of_lookup_2.
  - eapply (IH i j); [lia|done|done].
Qed.

Lemma freq_of_entry (l : list (string * nat)) (w : string) (n : nat) :
  NoDup (fst <$> l) → (w, n) ∈ l → freq_of w l = n.
Proof.
  induction l as [|[v k] l IH]; intros Hnd Hin; [by apply elem_of_nil in Hin|].
  csimpl in *. apply NoDup_cons in Hnd as [Hv Hnd].
  apply elem_of_cons in Hin as [[= <- <-]|Hin].
  - by rewrite decide_True.
  - rewrite decide_False; [by apply IH|].
    intros ->. apply Hv. apply list_elem_of_fmap. by exists (w, n).
Qed.

Lemma freq_of_perm (l l' : list (string * nat)) (w : string) :
  NoDup (fst <$> l) → l ≡ₚ l' → freq_of w l' = freq_of w l.
Proof.
  intros Hnd Hp.
  assert (Hnd' : NoDup (fst <$> l')) by (by rewrite <- Hp).
  destruct (decide (w ∈ fst <$> l)) as [Hin|Hnin].
  - apply list_elem_of_fmap in Hin as ([v n] & -> & Hin). simpl.
    rewrite (freq_of_entry l v n Hnd Hin).
    apply freq_of_entry; [done|]. by rewrite <- Hp.
  - assert (Hz : ∀ k, w ∉ fst <$> k → freq_of w k = 0%nat).
    { induction k as [|[v n] k IH]; csimpl; [done|]. intros Hk.
      apply not_elem_of_cons in Hk as [Hne Hk].
      rewrite decide_False by congruence. by apply IH. }
    rewrite (Hz l Hnin). apply Hz. by rewrite <- Hp.
Qed.

Section Regex.

Variable re_words : string → list string.

Local Abbreviation _extract_keywords_fallback := (_extract_keywords_fallback re_words).
Local Abbreviation extract_keywords_ai := (extract_keywords_ai re_words).

Lemma fallback_length (content : string) (max_keywords : Z) :
  0 ≤ max_keywords →
  Z.of_nat (length (_extract_keywords_fallback content max_keywords)) ≤ max_keywords.
Proof.
  intros Hmax. unfold Keywords._extract_keywords_fallback.
  rewrite length_fmap. by apply slice_to_length.
Qed.

(** X13: The frequency fallback returns words of the text, none of them a stop
    word and none twice, at most [max_keywords] of them, in non-increasing
    order of their number of occurrences; and every word that is no stop word
    is returned when [max_keywords] is at least the number of words. *)
Theorem fallback_keywords_by_frequency (content : string) (max_keywords : Z) :
  let words := re_words (PyStr.lower content) in
  let r := _extract_keywords_fallback content max_keywords in
  NoDup r ∧
  (∀ w, w ∈ r → w ∈ words ∧ w ∉ stop_words) ∧
  (0 ≤ max_keywords → Z.of_nat (length r) ≤ max_keywords) ∧
  (∀ (i j : nat) (w v : string),
     (i < j)%nat → r !! i = Some w → r !! j = Some v →
     (occ v words ≤ occ w words)%nat) ∧
  (Z.of_nat (length words) ≤ max_keywords →
   ∀ w, w ∈ words → w ∉ stop_words → w ∈ r).
Proof.
  intros words r. unfold r, Keywords._extract_keywords_fallback. fold words.
  destruct (count_all_counted words) as (Hnd & Hkeys & Hfreq).
  pose proof (sort_desc_perm (count_all words)) as Hperm.
  pose proof (sort_desc_sorted (count_all words)) as Hsorted.
  destruct (slice_to_prefix max_keywords (sort_desc (count_all words))) as [k Hk].
  rewrite Hk.
  assert (Hnd' : NoDup (fst <$> sort_desc (count_all words))) by (by rewrite Hperm).
  assert (Hsub : ∀ w, w ∈ fst <$> take k (sort_desc (count_all words)) →
                      w ∈ fst <$> count_all words).
  { intros w Hw. rewrite <- Hperm. rewrite <- (take_drop k (sort_desc _)).
    rewrite fmap_app. apply elem_of_app. by left. }
  split; [|split; [|split; [|split]]].
  - rewrite <- (take_drop k (sort_desc _)), fmap_app in Hnd'.
    by apply NoDup_app in Hnd' as [? _].
  - intros w Hw. by apply Hkeys, Hsub.
  - intros Hmax. rewrite <- Hk. by apply fallback_length.
  - intros i j w v Hij Hi Hj.
    rewrite list_lookup_fmap in Hi, Hj.
    destruct (take k _ !! i) as [[w' n]|] eqn:Ei; [|done].
    destruct (take k _ !! j) as [[v' m]|] eqn:Ej; [|done].
    simpl in Hi, Hj. injection Hi as ->. injection Hj as ->.
    apply lookup_take_Some in Ei as [Ei _]. apply lookup_take_Some in Ej as [Ej _].
    pose proof (descending_lookup _ i j _ _ Hsorted Hij Ei Ej) as Hle. simpl in Hle.
    apply list_elem_of_lookup_2 in Ei, Ej. rewrite Hperm in Ei, Ej.
    pose proof (freq_of_entry _ _ _ Hnd Ei) as Fw.
    pose proof (freq_of_entry _ _ _ Hnd Ej) as Fv.
    rewrite Hfreq in Fw, Fv.
    assert (Hws : w ∉ stop_words).
    { apply (Hkeys w). apply list_elem_of_fmap. by exists (w, n). }
    assert (Hvs : v ∉ stop_words).
    { apply (Hkeys v). apply list_elem_of_fmap. by exists (v, m). }
    repeat case_decide; try done; lia.
  - intros Hmax w Hw Hstop. rewrite <- Hk, slice_to_all.
    + rewrite Hperm. by apply Hkeys.
    + rewrite Hperm.
      assert (length (count_all words) ≤ length words)%nat; [|lia].
      rewrite <- (length_fmap fst).
      apply submseteq_length, NoDup_submseteq; [done|].
      intros x Hx. by apply Hkeys in Hx as [? _].
Qed.

(** X14: [extract_keywords_ai] is the frequency fallback when the parser is
    disabled, when the request raises and when the answer holds no list; on
    every path it returns at most [max_keywords] entries. *)
Theorem ai_keywords_are_bounded (p : DeepSeek.DeepSeekParser)
    (remote_keywords : string → Z → result (option (list pyval)))
    (content : string) (max_keywords : Z) :
  0 ≤ max_keywords →
  Z.of_nat (length (extract_keywords_ai p remote_keywords content max_keywords))
    ≤ max_keywords ∧
  (DeepSeek.enabled p = false ∨
   (∀ l, remote_keywords content max_keywords ≠ Ok (Some l)) →
   extract_keywords_ai p remote_keywords content max_keywords
     = VStr <$> _extract_keywords_fallback content max_keywords).
Proof.
  intros Hmax.
  assert (Hfb : Z.of_nat (length (VStr <$> _extract_keywords_fallback content max_keywords))
                ≤ max_keywords).
  { rewrite length_fmap. by apply fallback_length. }
  unfold Keywords.extract_keywords_ai. split.
  - destruct (negb _); [done|].
    destruct (remote_keywords _ _) as [[l|]|]; try done. by apply slice_to_length.
  - intros [->|Hno]; [done|]. destruct (negb _); [done|].
    destruct (remote_keywords _ _) as [[l|]|]; try done. by destruct (Hno l).
Qed.

End Regex.

Lemma fallback_keywords_by_frequency_witness :
  Z.of_nat (length (_extract_keywords_fallback
    (λ _, ["the"; "crawler"; "scrapy"; "crawler"]) "text" 1)) ≤ 1.
Proof.
  apply (proj1 (proj2 (proj2 (fallback_keywords_by_frequency
           (λ _, ["the"; "crawler"; "scrapy"; "crawler"]) "text" 1)))).
  lia.
Defined.

Lemma ai_keywords_are_bounded_witness :
  Z.of_nat (length (extract_keywords_ai (λ _, ["crawler"; "scrapy"]) DeepSeek.no_key
    (λ _ _, Raise) "text" 1)) ≤ 1.
Proof.
  apply (proj1 (ai_keywords_are_bounded (λ _, ["crawler"; "scrapy"]) DeepSeek.no_key
           (λ _ _, Raise) "text" 1 ltac:(lia))).
Defined.

(** Words of equal frequency come in the order of their first occurrence. *)
Example ties_keep_first_occurrence :
  _extract_keywords_fallback (λ _, ["beta"; "alpha"; "gamma"; "alpha"; "beta"])
    "text" 10 = ["beta"; "alpha"; "gamma"].
Proof. by vm_compute. Qed.

End KeywordsFacts.

(** ** The duplicate filter *)

Module Duplicates.

Import Pipelines.

(** The members of a Python [set], up to [==]: [True == 1] and [False == 0],
    [None] equals itself only.  Lists and dictionaries cannot be members. *)
Inductive key :=
| KNone
| KNum (z : Z)
| KStr (s : string).

Global Instance key_eq_dec : EqDecision key.
Proof. solve_decision. Defined.

Global Instance key_countable : Countable key.
Proof.
  refine (inj_countable'
    (λ k, match k with
          | KNone => inl ()
          | KNum z => inr (inl z)
          | KStr s => inr (inr s)
          end)
    (λ x, match x with
          | inl _ => KNone
          | inr (inl z) => KNum z
          | inr (inr s) => KStr s
          end) _).
  by intros [].
Defined.

(** The set member a value stands for; [None] when it is unhashable. *)
Definition key_of (v : pyval) : option key :=
  match v with
  | VNone => Some KNone
  | VBool b => Some (KNum (if b then 1 else 0))
  | VInt z => Some (KNum z)
  | VStr s => Some (KStr s)
  | VList _ | VDict _ => None
  end.

(** [item.get('url')] as a set member. *)
Definition url_key (item : Item) : option key := key_of (Py.get item "url" VNone).

Section Format.

Variable str_of : pyval → string.

(** [DuplicateFilterPipeline.process_item(item, spider)], with [urls_seen]
    before and after. *)
Definition duplicate_process_item (urls_seen : gset key) (item : Item)
    : outcome * gset key :=
  let url := Py.get item "url" VNone in
  match key_of url with
  | None => (Exception, urls_seen)
  | Some k =>
      if decide (k ∈ urls_seen)
      then (DropItem ("Duplicate item found: " +:+ format str_of url), urls_seen)
      else (Forward item, {[k]} ∪ urls_seen)
  end.

(** The filter on a sequence of items. *)
Fixpoint duplicate_run (urls_seen : gset key) (items : list Item)
    : list outcome * gset key :=
  match items with
  | [] => ([], urls_seen)
  | item :: items' =>
      let '(o, seen') := duplicate_process_item urls_seen item in
      let '(os, seen'') := duplicate_run seen' items' in
      (o :: os, seen'')
  end.

End Format.

(** The items among the outcomes. *)
Definition forwarded (os : list outcome) : list Item :=
  omap (λ o, match o with Forward item => Some item | _ => None end) os.

End Duplicates.

Module DuplicatesFacts.

Import Pipelines Duplicates.

Section Format.

Variable str_of : pyval → string.

Local Abbreviation duplicate_process_item := (duplicate_process_item str_of).
Local Abbreviation duplicate_run := (duplicate_run str_of).

Lemma duplicate_run_cons (seen : gset key) (item : Item) (items : list Item) :
  duplicate_run seen (item :: items) =
    ((duplicate_process_item seen item).1
       :: (duplicate_run (duplicate_process_item seen item).2 items).1,
     (duplicate_run (duplicate_process_item seen item).2 items).2).
Proof.
  simpl. destruct (duplicate_process_item seen item) as [o seen']. simpl.
  by destruct (Duplicates.duplicate_run str_of seen' items).
Qed.

Lemma duplicate_step (seen : gset key) (item : Item) :
  match url_key item with
  | None => duplicate_process_item seen item = (Exception, seen)
  | Some k =>
      if decide (k ∈ seen)
      then ∃ msg, duplicate_process_item seen item = (DropItem msg, seen)
      else duplicate_process_item seen item = (Forward item, {[k]} ∪ seen)
  end.
Proof.
  unfold Duplicates.duplicate_process_item, url_key.
  destruct (key_of _) as [k|]; [|done]. case_decide; eauto.
Qed.

Lemma omap_url_key_cons (item : Item) (items : list Item) :
  omap url_key (item :: items) =
    match url_key item with
    | Some k => k :: omap url_key items
    | None => omap url_key items
    end.
Proof. done. Qed.

Lemma forwarded_cons (o : outcome) (os : list outcome) :
  forwarded (o :: os) =
    match o with Forward item => item :: forwarded os | _ => forwarded os end.
Proof. by destruct o. Qed.

Lemma duplicate_run_spec (items : list Item) (seen : gset key) :
  let r := duplicate_run seen items in
  length r.1 = length items ∧
  r.2 = seen ∪ list_to_set (omap url_key items) ∧
  NoDup (omap url_key (forwarded r.1)) ∧
  (∀ k, k ∈ omap url_key (forwarded r.1) → k ∉ seen) ∧
  (∀ item, item ∈ forwarded r.1 → item ∈ items ∧ is_Some (url_key item)) ∧
  (∀ (i : nat) (item : Item), items !! i = Some item →
     (r.1 !! i = Some (Forward item) ↔
      ∃ k, url_key item = Some k ∧ (k ∉ seen) ∧ (k ∉ omap url_key (take i items)))).
Proof.
  revert seen. induction items as [|item items IH]; intros seen.
  { simpl. split; [done|]. split; [by rewrite (right_id_L ∅ (∪))|].
    split; [constructor|].
    split; [by intros k ?%elem_of_nil|]. split; [by intros k ?%elem_of_nil|]. done. }
  cbv zeta. rewrite duplicate_run_cons.
  pose proof (duplicate_step seen item) as Hstep.
  rewrite omap_url_key_cons.
  destruct (url_key item) as [k|] eqn:Hk;
    [destruct (decide (k ∈ seen)) as [Hin|Hnin]; [destruct Hstep as [msg Hstep]|]|];
    rewrite Hstep; cbn [fst snd]; rewrite forwarded_cons.
  - (* a duplicate: dropped *)
    destruct (IH seen) as (Hlen & Hseen & Hnd & Hnew & Hsub & Hidx).
    split; [simpl; by rewrite Hlen|].
    split. { rewrite Hseen, list_to_set_cons. apply set_eq. intros x.
             rewrite !elem_of_union, elem_of_singleton. split; [tauto|].
             intros [?|[->|?]]; tauto. }
    split; [done|]. split; [done|].
    split; [intros it Hit; destruct (Hsub it Hit); split; [by right|done]|].
    intros [|i] it Hi; simpl in Hi |- *.
    + simplify_eq. split; [done|]. intros (k' & Hk' & Hns & _). congruence.
    + rewrite (Hidx i it Hi), Hk. split.
      * intros (k' & ? & ? & ?). exists k'. split; [done|]. split; [done|].
        intros [->|?]%elem_of_cons; done.
      * intros (k' & ? & ? & Hn). exists k'. split; [done|]. split; [done|].
        intros ?. apply Hn. by right.
  - (* a new URL: forwarded and recorded *)
    destruct (IH ({[k]} ∪ seen)) as (Hlen & Hseen & Hnd & Hnew & Hsub & Hidx).
    split; [simpl; by rewrite Hlen|].
    split. { rewrite Hseen, list_to_set_cons. apply set_eq. intros x.
             rewrite !elem_of_union, elem_of_singleton. tauto. }
    rewrite omap_url_key_cons, Hk.
    split. { apply NoDup_cons. split; [|done]. intros Hin. apply Hnew in Hin.
             apply Hin, elem_of_union_l. by apply elem_of_singleton. }
    split. { intros k' [->|Hin]%elem_of_cons; [done|]. apply Hnew in Hin.
             intros ?. apply Hin. by apply elem_of_union_r. }
    split. { intros it [->|Hit]%elem_of_cons.
             - split; [by left|by rewrite Hk].
             - destruct (Hsub it Hit). split; [by right|done]. }
    intros [|i] it Hi; simpl in Hi |- *.
    + simplify_eq. split; [|done]. intros _. exists k. split; [done|]. split; [done|].
      by intros ?%elem_of_nil.
    + rewrite (Hidx i it Hi), Hk. split.
      * intros (k' & ? & Hns & ?). exists k'. split; [done|].
        apply not_elem_of_union in Hns as [Hne ?]. split; [done|].
        intros [->|?]%elem_of_cons; [|done]. apply Hne. by apply elem_of_singleton.
      * intros (k' & ? & ? & Hn). exists k'. split; [done|].
        apply not_elem_of_cons in Hn as [Hne ?]. split; [|done].
        intros [->%elem_of_singleton|?]%elem_of_union; done.
  - (* an unhashable URL: an exception, nothing recorded *)
    destruct (IH seen) as (Hlen & Hseen & Hnd & Hnew & Hsub & Hidx).
    split; [simpl; by rewrite Hlen|]. split; [done|].
    split; [done|]. split; [done|].
    split; [intros it Hit; destruct (Hsub it Hit); split; [by right|done]|].
    intros [|i] it Hi; simpl in Hi |- *.
    + simplify_eq. split; [done|]. intros (k' & Hk' & _). congruence.
    + by rewrite (Hidx i it Hi), Hk.
Qed.

(** X15: Over any sequence of items the duplicate filter forwards exactly the
    first item of every URL not seen before: an item is forwarded if and only
    if its URL is hashable, was not in [urls_seen] and is the URL of no earlier
    item of the sequence; the forwarded items have pairwise different URLs;
    and every hashable URL is in [urls_seen] afterwards.  An item without
    [url] counts as having the URL [None]. *)
Theorem duplicate_filter_keeps_first (seen : gset key) (items : list Item) :
  let r := duplicate_run seen items in
  length r.1 = length items ∧
  r.2 = seen ∪ list_to_set (omap url_key items) ∧
  NoDup (omap url_key (forwarded r.1)) ∧
  (∀ item, item ∈ forwarded r.1 → item ∈ items) ∧
  (∀ (i : nat) (item : Item), items !! i = Some item →
     (r.1 !! i = Some (Forward item) ↔
      ∃ k, url_key item = Some k ∧ (k ∉ seen) ∧ (k ∉ omap url_key (take i items)))).
Proof.
  destruct (duplicate_run_spec items seen) as (H1 & H2 & H3 & _ & H5 & H6).
  cbv zeta. split; [done|]. split; [done|]. split; [done|].
  split; [|done]. intros item Hitem. by destruct (H5 item Hitem).
Qed.

End Format.

(** Two items without a URL: the second is a duplicate of the first. *)
Example items_without_url_collide :
  (duplicate_run (λ _, "None") ∅ [ {[ "title" := VStr "a" ]}; {[ "title" := VStr "b" ]} ]).1
  = [ Forward {[ "title" := VStr "a" ]}; DropItem "Duplicate item found: None" ].
Proof. by vm_compute. Qed.

Lemma duplicate_filter_keeps_first_witness :
  (duplicate_run (λ _, "") ∅ [guide; guide]).1 !! 0%nat = Some (Forward guide) ↔
  ∃ k, url_key guide = Some k ∧ (k ∉ (∅ : gset key)) ∧
       (k ∉ omap url_key (take 0 [guide; guide])).
Proof.
  apply (proj2 (proj2 (proj2 (proj2
    (duplicate_filter_keeps_first (λ _, "") ∅ [guide; guide])))) 0%nat guide).
  reflexivity.
Defined.

End DuplicatesFacts.

(** ** The export pipelines *)

Module ExportPipelines.

Import Pipelines.

(** [re.sub(r'\s+', ' ', s)]: every maximal run of whitespace becomes one
    space.  [in_run] tells whether the previous character was whitespace. *)
Fixpoint collapse_spaces (in_run : bool) (s : string) : string :=
  match s with
  | EmptyString => EmptyString
  | String c s' =>
      if PyStr.is_space c then
        if in_run then collapse_spaces true s'
        else String " "%char (collapse_spaces true s')
      else String c (collapse_spaces false s')
  end.

(** [s[:n]] on a string: a negative [n] counts from the end. *)
Definition str_slice_to (n : Z) (s : string) : string :=
  if 0 <=? n then String.substring 0 (Z.to_nat n) s
  else String.substring 0 (String.length s - Z.to_nat (- n)) s.

(** [_truncate_content(content, max_length)] on a string. *)
Definition _truncate_content (content : string) (max_length : Z) : string :=
  if negb (PyStr.truthy content) then ""
  else
    let content := collapse_spaces false (PyStr.strip content) in
    if max_length <? Z.of_nat (String.length content)
    then str_slice_to max_length content +:+ "..."
    else content.

(** The same on any value: a truthy value that is no string has no [strip]. *)
Definition truncate_value (content : pyval) (max_length : Z) : result string :=
  if negb (Py.truthy content) then Ok ""
  else match content with
       | VStr s => Ok (_truncate_content s max_length)
       | _ => Raise
       end.

(** [sep.join(l)] on strings. *)
Fixpoint join (sep : string) (l : list string) : string :=
  match l with
  | [] => ""
  | [x] => x
  | x :: l' => x +:+ sep +:+ join sep l'
  end.

(** The strings of a list of values, if all of them are strings. *)
Fixpoint all_strings (l : list pyval) : option (list string) :=
  match l with
  | [] => Some []
  | VStr s :: l' => match all_strings l' with Some r => Some (s :: r) | None => None end
  | _ :: _ => None
  end.

(** The one-character strings of a string. *)
Fixpoint letters (s : string) : list string :=
  match s with
  | EmptyString => []
  | String c s' => String c EmptyString :: letters s'
  end.

Section Runtime.

(** The keys of a dictionary in the order the runtime iterates over them. *)
Variable dict_keys : gmap string pyval → list string.

(** [sep.join(v)]: [v] must be iterable and yield strings. *)
Definition join_value (sep : string) (v : pyval) : result string :=
  match v with
  | VList l => match all_strings l with Some r => Ok (join sep r) | None => Raise end
  | VStr s => Ok (join sep (letters s))
  | VDict d => Ok (join sep (dict_keys d))
  | _ => Raise
  end.

(** [len(v)]. *)
Definition len_value (v : pyval) : result Z :=
  match v with
  | VList l => Ok (Z.of_nat (length l))
  | VStr s => Ok (Z.of_nat (String.length s))
  | VDict d => Ok (Z.of_nat (size d))
  | _ => Raise
  end.

(** A CSV row under construction: field names with their values, in the
    order of the dictionary literal. *)
Definition csv_item := list (string * pyval).

(** [rowdict.get(f)]. *)
Fixpoint cell (f : string) (rowdict : csv_item) : option pyval :=
  match rowdict with
  | [] => None
  | (k, v) :: rest => if decide (k = f) then Some v else cell f rest
  end.

(** [csv.DictWriter(file, fieldnames).writerow(rowdict)]: the cells in the
    order of [fieldnames]; a key outside [fieldnames] is an error, a missing
    one gives the empty string. *)
Definition writerow (fieldnames : list string) (rowdict : csv_item)
    : result (list pyval) :=
  if forallb (λ kv, bool_decide (kv.1 ∈ fieldnames)) rowdict
  then Ok ((λ f, default (VStr "") (cell f rowdict)) <$> fieldnames)
  else Raise.

(** [writeheader()]: the row of the field names. *)
Definition header_row (fieldnames : list string) : list pyval := VStr <$> fieldnames.

(** The pipeline object: [self.items], the rows written to [self.csv_file] so
    far, the field names of [self.csv_writer], whether
    [csv_writer_initialized] is set, and the JSON file once written. *)
Record DataExportPipeline := mkExport {
  items : list Item;
  csv_rows : list (list pyval);
  csv_writer : list string;
  csv_writer_initialized : bool;
  json_file : option (list Item)
}.

Definition basic_fieldnames : list string :=
  ["url"; "title"; "content_preview"; "matched_keywords"; "links_count";
   "depth"; "crawl_time"].

(** [DataExportPipeline()] followed by [open_spider(spider)]: the file holds
    the header. *)
Definition open_spider : DataExportPipeline :=
  {| items := []; csv_rows := [header_row basic_fieldnames];
     csv_writer := basic_fieldnames; csv_writer_initialized := false;
     json_file := None |}.

(** [close_spider(spider)]: the JSON file is written if there are items. *)
Definition close_spider (p : DataExportPipeline) : DataExportPipeline :=
  match items p with
  | [] => p
  | _ => {| items := items p; csv_rows := csv_rows p; csv_writer := csv_writer p;
            csv_writer_initialized := csv_writer_initialized p;
            json_file := Some (items p) |}
  end.

(** The dictionary literal [csv_item] of [DataExportPipeline.process_item];
    its values are computed in order, and the first failure ends the call. *)
Definition basic_csv_item (item : Item) : result csv_item :=
  match truncate_value (Py.get item "content" (VStr "")) 200 with
  | Raise => Raise
  | Ok preview =>
  match join_value ", " (Py.get item "matched_keywords" (VList [])) with
  | Raise => Raise
  | Ok matched =>
  match len_value (Py.get item "links_found" (VList [])) with
  | Raise => Raise
  | Ok links =>
      Ok [ ("url", Py.get item "url" (VStr ""));
           ("title", Py.get item "title" (VStr ""));
           ("content_preview", VStr preview);
           ("matched_keywords", VStr matched);
           ("links_count", VInt links);
           ("depth", Py.get item "depth" (VInt 0));
           ("crawl_time", Py.get item "crawl_time" (VStr "")) ]
  end end end.

(** The write of a row and [self.items.append(dict(item))]. *)
Definition write_and_keep (p : DataExportPipeline) (fieldnames : list string)
    (rows_before : list (list pyval)) (initialized : bool) (row : csv_item)
    (item : Item) : outcome * DataExportPipeline :=
  match writerow fieldnames row with
  | Raise =>
      (Exception,
       {| items := items p; csv_rows := csv_rows p ++ rows_before;
          csv_writer := fieldnames; csv_writer_initialized := initialized;
          json_file := json_file p |})
  | Ok cells =>
      (Forward item,
       {| items := items p ++ [item];
          csv_rows := csv_rows p ++ rows_before ++ [cells];
          csv_writer := fieldnames; csv_writer_initialized := initialized;
          json_file := json_file p |})
  end.

(** [DataExportPipeline.process_item(item, spider)]. *)
Definition process_item (p : DataExportPipeline) (item : Item)
    : outcome * DataExportPipeline :=
  match basic_csv_item item with
  | Raise => (Exception, p)
  | Ok row => write_and_keep p (csv_writer p) [] (csv_writer_initialized p) row item
  end.

Definition enhanced_fieldnames : list string :=
  basic_fieldnames ++
  ["ai_summary"; "ai_sentiment"; "ai_topics"; "ai_entities"; "ai_keywords"].

(** The dictionary literal of [EnhancedDataExportPipeline.process_item]. *)
Definition enhanced_csv_item (item : Item) : result csv_item :=
  match basic_csv_item item with
  | Raise => Raise
  | Ok basic =>
  match join_value ", " (Py.get item "ai_topics" (VList [])) with
  | Raise => Raise
  | Ok topics =>
  match join_value ", " (Py.get item "ai_entities" (VList [])) with
  | Raise => Raise
  | Ok entities =>
  match join_value ", " (Py.get item "ai_keywords" (VList [])) with
  | Raise => Raise
  | Ok kws =>
      Ok (basic ++
          [ ("ai_summary", Py.get item "ai_summary" (VStr ""));
            ("ai_sentiment", Py.get item "ai_sentiment" (VStr ""));
            ("ai_topics", VStr topics);
            ("ai_entities", VStr entities);
            ("ai_keywords", VStr kws) ])
  end end end end.

(** [EnhancedDataExportPipeline.process_item(item, spider)]: the first call
    makes a new writer on the same file and writes its header. *)
Definition enhanced_process_item (p : DataExportPipeline) (item : Item)
    : outcome * DataExportPipeline :=
  match enhanced_csv_item item with
  | Raise => (Exception, p)
  | Ok row =>
      if csv_writer_initialized p
      then write_and_keep p (csv_writer p) [] true row item
      else write_and_keep p (fst <$> row) [header_row (fst <$> row)] true row item
  end.

(** A pipeline fed a sequence of items. *)
Fixpoint feed (step : DataExportPipeline → Item → outcome * DataExportPipeline)
    (p : DataExportPipeline) (l : list Item) : list outcome * DataExportPipeline :=
  match l with
  | [] => ([], p)
  | item :: l' =>
      let '(o, p') := step p item in
      let '(os, p'') := feed step p' l' in
      (o :: os, p'')
  end.

End Runtime.

(** Whether a string holds no whitespace other than the space itself. *)
Fixpoint single_line (s : string) : bool :=
  match s with
  | EmptyString => true
  | String c s' =>
      (negb (PyStr.is_space c) || Ascii.eqb c " "%char) && single_line s'
  end.

(** Whether a string holds whitespace only. *)
Fixpoint blank (s : string) : bool :=
  match s with
  | EmptyString => true
  | String c s' => PyStr.is_space c && blank s'
  end.

End ExportPipelines.

Module ExportFacts.

Import Pipelines ExportPipelines.

Lemma single_line_collapse (b : bool) (s : string) :
  single_line (collapse_spaces b s) = true.
Proof.
  revert b. induction s as [|c s IH]; intros b; simpl; [done|].
  destruct (PyStr.is_space c) eqn:Hc.
  - destruct b; simpl; by rewrite ?IH.
  - simpl. by rewrite Hc, IH.
Qed.

Lemma single_line_substring (n : nat) (s : string) :
  single_line s = true → single_line (String.substring 0 n s) = true.
Proof.
  revert n. induction s as [|c s IH]; intros n Hs; [by destruct n|].
  destruct n as [|n]; [done|]. simpl in *.
  apply andb_true_iff in Hs as [-> Hs]. by rewrite IH.
Qed.

Lemma single_line_append (a b : string) :
  single_line (a +:+ b) = single_line a && single_line b.
Proof.
  induction a as [|c a IH]; simpl; [done|]. by rewrite IH, andb_assoc.
Qed.

Lemma length_substring_le (n : nat) (s : string) :
  (String.length (String.substring 0 n s) ≤ n)%nat.
Proof.
  revert n. induction s as [|c s IH]; intros n; [destruct n; simpl; lia|].
  destruct n as [|n]; simpl; [lia|]. specialize (IH n). lia.
Qed.

Lemma length_append (a b : string) :
  String.length (a +:+ b) = (String.length a + String.length b)%nat.
Proof. induction a as [|c a IH]; simpl; [done|]. by rewrite IH. Qed.

Lemma blank_lstrip (s : string) : blank s = true → PyStr.lstrip s = "".
Proof.
  induction s as [|c s IH]; simpl; [done|].
  intros [Hc Hs]%andb_true_iff. rewrite Hc. by apply IH.
Qed.

(** X16: The CSV preview of a text holds no line break and no tab: its only
    whitespace is the single space; with a bound [max_length ≥ 0] it is at
    most [max_length + 3] characters long, and empty for a text of whitespace
    only. *)
Theorem preview_is_short_and_single_line (content : string) (max_length : Z) :
  single_line (_truncate_content content max_length) = true ∧
  (0 ≤ max_length →
   Z.of_nat (String.length (_truncate_content content max_length)) ≤ max_length + 3 ∧
   (blank content = true → _truncate_content content max_length = "")).
Proof.
  unfold _truncate_content. split.
  - destruct (negb _); [done|]. destruct (_ <? _).
    + rewrite single_line_append, andb_true_r. unfold str_slice_to.
      destruct (0 <=? max_length); apply single_line_substring, single_line_collapse.
    + apply single_line_collapse.
  - intros Hmax. split.
    + destruct (negb _); [simpl; lia|].
      destruct (Z.ltb_spec max_length
                  (Z.of_nat (String.length (collapse_spaces false (PyStr.strip content)))))
        as [Hlt|Hge]; [|lia].
      rewrite length_append. unfold str_slice_to.
      assert ((0 <=? max_length) = true) as -> by (by apply Z.leb_le).
      pose proof (length_substring_le (Z.to_nat max_length)
                    (collapse_spaces false (PyStr.strip content))).
      simpl. lia.
    + intros Hb. destruct (negb _); [done|].
      unfold PyStr.strip. rewrite (blank_lstrip _ Hb).
      change (Z.of_nat (String.length (collapse_spaces false (PyStr.rstrip ""))))
        with 0.
      assert ((max_length <? 0) = false) as -> by (apply Z.ltb_ge; lia). done.
Qed.

Lemma preview_is_short_and_single_line_witness :
  Z.of_nat (String.length (_truncate_content "a  b" 2)) ≤ 2 + 3 ∧
  (blank "a  b" = true → _truncate_content "a  b" 2 = "").
Proof.
  apply (proj2 (preview_is_short_and_single_line "a  b" 2)). lia.
Defined.

Example preview_example :
  _truncate_content ("  one" +:+ String DeepSeekText.newline "two   three ") 7
    = "one two...".
Proof. by vm_compute. Qed.

Lemma Duplicates_forwarded_cons (item : Item) (os : list outcome) :
  Duplicates.forwarded (Forward item :: os) = item :: Duplicates.forwarded os.
Proof. done. Qed.

Section Runtime.

Variable dict_keys : gmap string pyval → list string.

Local Abbreviation basic_csv_item := (basic_csv_item dict_keys).
Local Abbreviation enhanced_csv_item := (enhanced_csv_item dict_keys).
Local Abbreviation process_item := (process_item dict_keys).
Local Abbreviation enhanced_process_item := (enhanced_process_item dict_keys).

Lemma feed_cons (step : DataExportPipeline → Item → outcome * DataExportPipeline)
    (p : DataExportPipeline) (item : Item) (l : list Item) :
  feed step p (item :: l) =
    ((step p item).1 :: (feed step (step p item).2 l).1,
     (feed step (step p item).2 l).2).
Proof.
  simpl. destruct (step p item) as [o p']. simpl.
  by destruct (feed step p' l).
Qed.

Lemma basic_row_ok (item : Item) (row : csv_item) :
  basic_csv_item item = Ok row →
  fst <$> row = basic_fieldnames ∧
  ∃ cells, writerow basic_fieldnames row = Ok cells ∧ length cells = 7%nat.
Proof.
  unfold ExportPipelines.basic_csv_item.
  destruct (truncate_value _ _); [|done].
  destruct (join_value _ _ _); [|done].
  destruct (len_value _); [|done].
  intros [= <-]. split; [done|]. eexists. split; [reflexivity|done].
Qed.

Lemma enhanced_row_ok (item : Item) (row : csv_item) :
  enhanced_csv_item item = Ok row →
  fst <$> row = enhanced_fieldnames ∧
  ∃ cells, writerow enhanced_fieldnames row = Ok cells ∧ length cells = 12%nat.
Proof.
  unfold ExportPipelines.enhanced_csv_item, ExportPipelines.basic_csv_item.
  destruct (truncate_value _ _); [|done].
  destruct (join_value _ _ (Py.get item "matched_keywords" _)); [|done].
  destruct (len_value _); [|done].
  destruct (join_value _ _ (Py.get item "ai_topics" _)); [|done].
  destruct (join_value _ _ (Py.get item "ai_entities" _)); [|done].
  destruct (join_value _ _ (Py.get item "ai_keywords" _)); [|done].
  intros [= <-]. split; [done|]. eexists. split; [reflexivity|done].
Qed.

(** What one call of the basic pipeline does to an opened pipeline. *)
Lemma process_item_step (p : DataExportPipeline) (item : Item) :
  csv_writer p = basic_fieldnames →
  (basic_csv_item item = Raise ∧ process_item p item = (Exception, p)) ∨
  (∃ cells, DeepScrapeMore.succeeded (basic_csv_item item) = true ∧
     length cells = 7%nat ∧
     process_item p item =
       (Forward item,
        {| items := items p ++ [item]; csv_rows := csv_rows p ++ [cells];
           csv_writer := basic_fieldnames;
           csv_writer_initialized := csv_writer_initialized p;
           json_file := json_file p |})).
Proof.
  intros Hw. unfold ExportPipelines.process_item.
  destruct (basic_csv_item item) as [row|] eqn:Hrow; [|by left].
  right. destruct (basic_row_ok item row Hrow) as (_ & cells & Hcells & Hlen).
  exists cells. split; [done|]. split; [done|].
  unfold write_and_keep. by rewrite Hw, Hcells.
Qed.

Lemma feed_basic (l : list Item) (p : DataExportPipeline) :
  csv_writer p = basic_fieldnames →
  let r := feed process_item p l in
  items r.2 = items p ++ Duplicates.forwarded r.1 ∧
  (∃ rows, csv_rows r.2 = csv_rows p ++ rows ∧
           length rows = length (Duplicates.forwarded r.1) ∧
           Forall (λ row, length row = 7%nat) rows) ∧
  Forall2 (λ item o, o = if DeepScrapeMore.succeeded (basic_csv_item item)
                         then Forward item else Exception) l r.1 ∧
  json_file r.2 = json_file p.
Proof.
  revert p. induction l as [|item l IH]; intros p Hw.
  { simpl. rewrite app_nil_r. split; [done|]. split; [|done].
    exists []. by rewrite app_nil_r. }
  cbv zeta. rewrite feed_cons.
  destruct (process_item_step p item Hw) as [[Hraise ->]|(cells & Hok & Hlen & ->)];
    cbn [fst snd].
  - destruct (IH p Hw) as (Hitems & Hrows & Hout & Hjson).
    split; [done|]. split; [done|]. split; [|done].
    constructor; [by rewrite Hraise|done].
  - match goal with |- context [feed _ ?q l] =>
      destruct (IH q eq_refl) as (Hitems & (rows & Hrows & Hrl & Hr7) & Hout & Hjson)
    end.
    cbn [items csv_rows json_file] in *.
    split. { rewrite Hitems, Duplicates_forwarded_cons, <- app_assoc. done. }
    split. { exists (cells :: rows). rewrite Hrows, <- app_assoc.
             split; [done|]. split; [|by constructor].
             rewrite Duplicates_forwarded_cons. simpl. by rewrite Hrl. }
    split; [|done]. constructor; [by rewrite Hok|done].
Qed.

(** X17: The basic export pipeline, opened and fed any sequence of items: an item
    whose row cannot be built (a content that is no string, keywords that
    cannot be joined, links without a length) raises and leaves no trace; every
    other item comes back unchanged, is appended to [self.items] and gets one
    CSV row of seven cells, in the order of arrival.  The CSV file starts with
    the header even when no item arrives; [close_spider] writes the JSON file,
    with exactly the kept items, only if there is one. *)
Theorem export_keeps_every_item (l : list Item) :
  let r := feed process_item open_spider l in
  items r.2 = Duplicates.forwarded r.1 ∧
  Forall2 (λ item o, o = if DeepScrapeMore.succeeded (basic_csv_item item)
                         then Forward item else Exception) l r.1 ∧
  (∃ rows, csv_rows r.2 = header_row basic_fieldnames :: rows ∧
           length rows = length (items r.2) ∧
           Forall (λ row, length row = 7%nat) rows) ∧
  json_file (close_spider r.2)
    = match items r.2 with [] => None | kept => Some kept end.
Proof.
  destruct (feed_basic l open_spider eq_refl)
    as (Hitems & (rows & Hrows & Hrl & Hr7) & Hout & Hjson).
  cbv zeta. simpl in Hitems, Hrows, Hjson.
  split; [done|]. split; [done|]. split.
  - exists rows. split; [done|]. split; [by rewrite Hitems|done].
  - unfold close_spider. by destruct (items _).
Qed.

(** What one call of the enhanced pipeline does. *)
Lemma enhanced_step (p : DataExportPipeline) (item : Item) :
  (csv_writer_initialized p = true → csv_writer p = enhanced_fieldnames) →
  (enhanced_csv_item item = Raise ∧ enhanced_process_item p item = (Exception, p)) ∨
  (∃ cells, length cells = 12%nat ∧
     enhanced_process_item p item =
       (Forward item,
        {| items := items p ++ [item];
           csv_rows := csv_rows p ++
             (if csv_writer_initialized p then []
              else [header_row enhanced_fieldnames]) ++ [cells];
           csv_writer := enhanced_fieldnames;
           csv_writer_initialized := true;
           json_file := json_file p |})).
Proof.
  intros Hw. unfold ExportPipelines.enhanced_process_item.
  destruct (enhanced_csv_item item) as [row|] eqn:Hrow; [|by left].
  right. destruct (enhanced_row_ok item row Hrow) as (Hnames & cells & Hcells & Hlen).
  exists cells. split; [done|].
  destruct (csv_writer_initialized p) eqn:Hinit; unfold write_and_keep.
  - by rewrite (Hw eq_refl), Hcells.
  - by rewrite Hnames, Hcells.
Qed.

(** The second header, written with the first row. *)
Definition late_header (initialized : bool) (kept : list Item) : list (list pyval) :=
  if initialized then []
  else match kept with [] => [] | _ => [header_row enhanced_fieldnames] end.

Lemma feed_enhanced (l : list Item) (p : DataExportPipeline) :
  (csv_writer_initialized p = true → csv_writer p = enhanced_fieldnames) →
  let r := feed enhanced_process_item p l in
  items r.2 = items p ++ Duplicates.forwarded r.1 ∧
  ∃ rows, csv_rows r.2 = csv_rows p ++
            late_header (csv_writer_initialized p) (Duplicates.forwarded r.1) ++ rows ∧
          length rows = length (Duplicates.forwarded r.1) ∧
          Forall (λ row, length row = 12%nat) rows.
Proof.
  revert p. induction l as [|item l IH]; intros p Hw.
  { simpl. rewrite app_nil_r. split; [done|]. exists [].
    unfold late_header. destruct (csv_writer_initialized p); by rewrite ?app_nil_r. }
  cbv zeta. rewrite feed_cons.
  destruct (enhanced_step p item Hw) as [[Hraise ->]|(cells & Hlen & ->)];
    cbn [fst snd].
  - apply (IH p Hw).
  - match goal with |- context [feed _ ?q l] =>
      destruct (IH q (λ _, eq_refl)) as (Hitems & rows & Hrows & Hrl & Hr12)
    end.
    cbn [items csv_rows csv_writer_initialized] in *.
    rewrite Duplicates_forwarded_cons.
    split. { by rewrite Hitems, <- app_assoc. }
    exists (cells :: rows). rewrite Hrows. unfold late_header at 1.
    split; [|split; [simpl; by rewrite Hrl|by constructor]].
    unfold late_header. destruct (csv_writer_initialized p); simpl.
    + by rewrite <- app_assoc.
    + by rewrite <- !app_assoc.
Qed.

(** X18: The enhanced export pipeline writes two headers: [open_spider] writes the
    seven basic column names, and the first item that is exported makes a new
    writer on the same file, which writes the twelve enhanced column names
    below them.  The rows that follow have twelve cells, one per kept item. *)
Theorem enhanced_export_writes_two_headers (l : list Item) :
  let r := feed enhanced_process_item open_spider l in
  items r.2 = Duplicates.forwarded r.1 ∧
  ∃ rows,
    csv_rows r.2 =
      header_row basic_fieldnames ::
      match items r.2 with
      | [] => []
      | _ => header_row enhanced_fieldnames :: rows
      end ∧
    length rows = length (items r.2) ∧
    Forall (λ row, length row = 12%nat) rows ∧
    length (header_row basic_fieldnames) = 7%nat ∧
    length (header_row enhanced_fieldnames) = 12%nat.
Proof.
  destruct (feed_enhanced l open_spider) as (Hitems & rows & Hrows & Hrl & Hr12).
  { discriminate. }
  cbv zeta. simpl in Hitems, Hrows. split; [done|]. exists rows.
  rewrite Hitems, Hrows. split; [|done].
  unfold late_header. destruct (Duplicates.forwarded _) eqn:Hf; [|done].
  simpl in Hrl. by destruct rows.
Qed.

End Runtime.

Example enhanced_export_example :
  length (csv_rows (feed (enhanced_process_item (λ _, [])) open_spider [guide]).2)
    = 3%nat.
Proof. by vm_compute. Qed.

End ExportFacts.

(** ** The command line of [scripts/run_crawl.py] *)

Module CommandLine.

Import Frontier DeepScrape.

Definition comma : ascii := ","%char.

(** [[u.strip() for u in s.split(",") if u.strip()]]. *)
Definition comma_list (s : string) : list string :=
  omap (λ u, if PyStr.truthy (PyStr.strip u) then Some (PyStr.strip u) else None)
       (DeepSeekText.split_on comma s).

Section App.

Variable TAG_RE_sub : string → string.
Variable http_get : string → result Page.
Variable Row : Type.
Variable to_dict : CrawlItem → Row.

(** [WebScraperApp()], once the settings file has been read: the manager over
    [DataProcessor()] and [URLManager()]. *)
Definition new_app : CrawlerManager Row :=
  new_manager Row new_processor (init default_max_urls).

(** [WebScraperApp.run(urls, keywords, fields)]. *)
Definition run (app : CrawlerManager Row) (urls keywords fields : list string)
    : CrawlerManager Row * nat :=
  start_crawl TAG_RE_sub http_get Row to_dict app urls (Some keywords) (Some fields).

(** [main()] on the parsed arguments [--urls], [--keywords], [--fields]. *)
Definition main (urls_arg keywords_arg fields_arg : string)
    : CrawlerManager Row * nat :=
  run new_app (comma_list urls_arg) (comma_list keywords_arg) (comma_list fields_arg).

End App.

Example comma_list_example :
  comma_list " https://a , ,https://b,," = ["https://a"; "https://b"].
Proof. by vm_compute. Qed.

End CommandLine.

Module CommandLineFacts.

Import Frontier DeepScrape CommandLine.
Import DeepSeekText (split_on, has_char).
Import DeepScrapeMore (succeeded).

Lemma split_on_no_sep (sep : ascii) (s : string) :
  Forall (λ p, has_char sep p = false) (split_on sep s).
Proof.
  induction s as [|c s IH]; simpl; [by repeat constructor|].
  destruct (Ascii.eqb c sep) eqn:Hc; [by constructor|].
  destruct (split_on sep s) as [|h t]; [by repeat constructor; simpl; rewrite Hc|].
  inversion IH; subst. constructor; [|done]. simpl. by rewrite Hc.
Qed.

Lemma lstrip_has_char (c : ascii) (s : string) :
  has_char c (PyStr.lstrip s) = true → has_char c s = true.
Proof.
  induction s as [|x s IH]; simpl; [done|].
  destruct (PyStr.is_space x); [|done].
  intros H. rewrite (IH H). apply orb_true_r.
Qed.

Lemma rstrip_has_char (c : ascii) (s : string) :
  has_char c (PyStr.rstrip s) = true → has_char c s = true.
Proof.
  induction s as [|x s IH]; simpl; [done|].
  destruct (PyStr.rstrip s) as [|y r].
  - destruct (PyStr.is_space x); simpl; [done|].
    rewrite orb_false_r. by intros ->.
  - change (has_char c (String x (String y r)))
      with (Ascii.eqb x c || has_char c (String y r)).
    intros [->|H]%orb_true_iff; [done|]. rewrite (IH H). apply orb_true_r.
Qed.

Lemma strip_has_char (c : ascii) (s : string) :
  has_char c s = false → has_char c (PyStr.strip s) = false.
Proof.
  intros Hs. destruct (has_char c (PyStr.strip s)) eqn:H; [|done].
  apply rstrip_has_char, lstrip_has_char in H. congruence.
Qed.

(** The entries of a comma-separated argument: none is empty, none holds a
    comma. *)
Lemma comma_list_entries (s : string) :
  Forall (λ u, u ≠ "" ∧ has_char comma u = false) (comma_list s).
Proof.
  unfold comma_list. pose proof (split_on_no_sep comma s) as H.
  induction H as [|p l Hp _ IH]; csimpl; [constructor|].
  destruct (PyStr.truthy (PyStr.strip p)) eqn:Ht; [|done].
  constructor; [|done]. split.
  - by apply DeepScrapeMore.truthy_nonempty.
  - by apply strip_has_char.
Qed.

Lemma eligible_nothing_visited (m : URLManager) (urls : list string) :
  visited m = ∅ → eligible m urls = urls.
Proof.
  intros Hv. unfold eligible. induction urls as [|u urls IH]; [done|].
  rewrite filter_cons_True; [by rewrite IH|]. rewrite Hv. apply not_elem_of_empty.
Qed.

Section App.

Variable TAG_RE_sub : string → string.
Variable http_get : string → result Page.
Variable Row : Type.
Variable to_dict : CrawlItem → Row.

Local Abbreviation main := (main TAG_RE_sub http_get Row to_dict).


End App.

End CommandLineFacts.

(** ** The legacy [DataProcessor] of [spiders/html_crawler.py] *)

Module Legacy.

(** [s.split()]: the maximal runs of characters that are no whitespace. *)
Fixpoint split_ws (s : string) : list string :=
  match s with
  | EmptyString => []
  | String c s' =>
      if PyStr.is_space c then split_ws s'
      else match s' with
           | EmptyString => [String c EmptyString]
           | String d _ =>
               if PyStr.is_space d then String c EmptyString :: split_ws s'
               else match split_ws s' with
                    | w :: ws => String c w :: ws
                    | [] => [String c EmptyString]
                    end
           end
  end.

(** [DataProcessor.clean_text(text)]:
    [' '.join(text.split()) if text else '']. *)
Definition clean_text (text : string) : string :=
  if PyStr.truthy text then ExportPipelines.join " " (split_ws text) else "".

(** Whether a string holds no whitespace at all. *)
Fixpoint no_space (s : string) : bool :=
  match s with
  | EmptyString => true
  | String c s' => negb (PyStr.is_space c) && no_space s'
  end.

(** A word: not empty, no whitespace. *)
Definition word (w : string) : Prop := w ≠ "" ∧ no_space w = true.

Example clean_text_example :
  clean_text (String "009" " two  words " +:+ String "010" "") = "two words".
Proof. by vm_compute. Qed.

End Legacy.

Module LegacyFacts.

Import Legacy.
Import ExportPipelines (join, single_line).

Lemma split_ws_words (s : string) : Forall word (split_ws s).
Proof.
  induction s as [|c s IH]; simpl; [constructor|].
  destruct (PyStr.is_space c) eqn:Hc; [done|].
  assert (Hone : word (String c "")).
  { split; [done|]. simpl. by rewrite Hc. }
  destruct s as [|d s']; [by constructor|].
  destruct (PyStr.is_space d) eqn:Hd; [by constructor|].
  destruct (split_ws (String d s')) as [|w ws]; [by constructor|].
  inversion IH as [|? ? [Hw1 Hw2] Hws]; subst.
  constructor; [|done]. split; [done|]. simpl. by rewrite Hc, Hw2.
Qed.

Lemma split_ws_inside_word (c d : ascii) (s : string) :
  PyStr.is_space c = false → PyStr.is_space d = false →
  split_ws (String c (String d s)) =
    match split_ws (String d s) with
    | w :: ws => String c w :: ws
    | [] => [String c EmptyString]
    end.
Proof.
  intros Hc Hd.
  transitivity
    (if PyStr.is_space c then split_ws (String d s)
     else if PyStr.is_space d then String c EmptyString :: split_ws (String d s)
          else match split_ws (String d s) with
               | w :: ws => String c w :: ws
               | [] => [String c EmptyString]
               end); [reflexivity|].
  by rewrite Hc, Hd.
Qed.

Lemma word_cons (c : ascii) (w : string) :
  word (String c w) → PyStr.is_space c = false ∧ (w = "" ∨ word w).
Proof.
  intros [_ Hns]. simpl in Hns. apply andb_true_iff in Hns as [Hc Hns].
  apply negb_true_iff in Hc. split; [done|].
  destruct w; [by left|]. right. by split.
Qed.

Lemma split_ws_app (w rest : string) :
  word w → split_ws (w +:+ String " " rest) = w :: split_ws rest.
Proof.
  induction w as [|c w IH]; intros Hw; [by destruct Hw|].
  destruct (word_cons c w Hw) as [Hc [->|Hw']].
  { simpl. by rewrite Hc. }
  destruct w as [|d w']; [by destruct Hw'|].
  destruct (word_cons d w' Hw') as [Hd _].
  change (String c (String d w') +:+ String " " rest)
    with (String c (String d (w' +:+ String " " rest))).
  rewrite split_ws_inside_word by done.
  change (String d (w' +:+ String " " rest)) with (String d w' +:+ String " " rest).
  by rewrite IH.
Qed.

Lemma split_ws_word (w : string) : word w → split_ws w = [w].
Proof.
  induction w as [|c w IH]; intros Hw; [by destruct Hw|].
  destruct (word_cons c w Hw) as [Hc [->|Hw']].
  { simpl. by rewrite Hc. }
  destruct w as [|d w']; [by destruct Hw'|].
  destruct (word_cons d w' Hw') as [Hd _].
  rewrite split_ws_inside_word by done. by rewrite IH.
Qed.

(** [' '.join(ws).split()] gives the words back. *)
Lemma split_ws_join (ws : list string) :
  Forall word ws → split_ws (join " " ws) = ws.
Proof.
  induction 1 as [|w ws Hw Hws IH]; [done|].
  destruct ws as [|v ws]; [by apply split_ws_word|].
  change (join " " (w :: v :: ws)) with (w +:+ String " " (join " " (v :: ws))).
  by rewrite split_ws_app, IH.
Qed.

Lemma no_space_single_line (w : string) : no_space w = true → single_line w = true.
Proof.
  induction w as [|c w IH]; simpl; [done|].
  intros [Hc Hw]%andb_true_iff. by rewrite Hc, IH.
Qed.

Lemma join_single_line (ws : list string) :
  Forall word ws → single_line (join " " ws) = true.
Proof.
  induction 1 as [|w ws [_ Hw] Hws IH]; [done|].
  destruct ws as [|v ws]; [by apply no_space_single_line|].
  change (join " " (w :: v :: ws)) with (w +:+ String " " (join " " (v :: ws))).
  rewrite ExportFacts.single_line_append. rewrite (no_space_single_line w Hw).
  simpl. exact IH.
Qed.

(** X20: The legacy cleaner normalises: its result has the words of the text, in
    order, separated by single spaces and nothing else, so it holds no tab
    and no line break, and cleaning it again changes nothing. *)
Theorem legacy_clean_text_is_idempotent (text : string) :
  clean_text (clean_text text) = clean_text text ∧
  split_ws (clean_text text) = split_ws text ∧
  clean_text text = join " " (split_ws text) ∧
  single_line (clean_text text) = true.
Proof.
  pose proof (split_ws_words text) as Hw.
  assert (Hc : clean_text text = join " " (split_ws text)).
  { unfold clean_text. by destruct text. }
  assert (Hs : split_ws (clean_text text) = split_ws text).
  { rewrite Hc. by apply split_ws_join. }
  split; [|split; [done|split; [done|]]].
  - unfold clean_text at 1. rewrite Hs, <- Hc.
    by destruct (clean_text text).
  - rewrite Hc. by apply join_single_line.
Qed.

End LegacyFacts.
